(** * Pace and GAP analysis of running activities (src/analyzer.py)

    A shallow embedding of the pure functions of [analyzer.py]:
    [filter_running_activities], [group_by_gear], [calculate_average_pace],
    [calculate_estimated_gap], [format_pace], [is_race],
    [filter_non_race_activities] and [calculate_shoe_statistics].

    Modelling choices.
    - An activity is a Python dict read only through [.get]; it is a record
      of optional fields, [None] standing for an absent key.
    - Python numbers are kept abstract behind the class [PyNumber].  The
      theorems are stated over the exact rationals [Q] (the "real number"
      reading of the specification); a second instance over IEEE binary64
      ([PrimFloat], the Python [float]) replays concrete inputs bit for bit.
    - Python's true division raises [ZeroDivisionError] on a zero divisor,
      so every function that divides lives in the error monad [result].
    - A [dict] keeps its keys in insertion order: the grouping result is an
      association list. *)

From Stdlib Require Import ZArith QArith Qround Bool List Ascii String.
From Stdlib Require Import Lia Lqa Permutation Sorted DecimalPos DecimalString.
From Stdlib Require Import Floats.
Import ListNotations.

Set Implicit Arguments.

(** ** Exceptions *)

Inductive exn : Type :=
| ZeroDivisionError
| OverflowError
| ValueError.

Inductive result (A : Type) : Type :=
| Ok (a : A)
| Raise (e : exn).

Arguments Ok {A} a.
Arguments Raise {A} e.

Definition bind {A B : Type} (c : result A) (k : A -> result B) : result B :=
  match c with
  | Ok a => k a
  | Raise e => Raise e
  end.

Declare Scope py_scope.
Delimit Scope py_scope with py.

Notation "'let*' x ':=' c 'in' k" := (bind c (fun x => k))
  (at level 10, x pattern, c at level 100, k at level 200) : py_scope.


(** ** Numbers *)

(** The operations [analyzer.py] applies to numbers.  [true_div x y] is the
    quotient of a division whose divisor is not zero; [py_div] below adds
    the exception. [int_of] is the builtin [int], truncation toward zero. *)
Class PyNumber (R : Type) : Type := {
  of_int : Z -> R;
  float_0_033 : R;
  num_add : R -> R -> R;
  num_sub : R -> R -> R;
  num_mul : R -> R -> R;
  true_div : R -> R -> R;
  num_eqb : R -> R -> bool;
  num_leb : R -> R -> bool;
  num_ltb : R -> R -> bool;
  int_of : R -> result Z
}.

Notation "x + y" := (num_add x y) : py_scope.
Notation "x - y" := (num_sub x y) : py_scope.
Notation "x * y" := (num_mul x y) : py_scope.
Notation "x == y" := (num_eqb x y) (at level 70, no associativity) : py_scope.
Notation "x <= y" := (num_leb x y) : py_scope.
Notation "x > y" := (num_ltb y x) : py_scope.

Definition py_div {R : Type} `{PyNumber R} (x y : R) : result R :=
  if num_eqb y (of_int 0) then Raise ZeroDivisionError else Ok (true_div x y).

Notation "x / y" := (py_div x y) : py_scope.

(** *** Exact rationals *)

Definition Qtrunc (q : Q) : Z := Z.quot (Qnum q) (Zpos (Qden q)).

#[export] Instance Q_number : PyNumber Q := {
  of_int := inject_Z;
  float_0_033 := 33 # 1000;
  num_add := Qplus;
  num_sub := Qminus;
  num_mul := Qmult;
  true_div := Qdiv;
  num_eqb := Qeq_bool;
  num_leb := Qle_bool;
  num_ltb := fun x y => negb (Qle_bool y x);
  int_of := fun q => Ok (Qtrunc q)
}.

(** *** IEEE binary64 *)

Definition float_of_int (z : Z) : float :=
  SF2Prim (binary_normalize prec emax z 0 false).

Definition float_int_of (x : float) : result Z :=
  match Prim2SF x with
  | S754_zero _ => Ok 0%Z
  | S754_finite s m e =>
      let v := (if 0 <=? e then Z.pos m * 2 ^ e
                else Z.quot (Z.pos m) (2 ^ (- e)))%Z in
      Ok (if s then (- v)%Z else v)
  | S754_infinity _ => Raise OverflowError
  | S754_nan => Raise ValueError
  end.

#[export] Instance binary64_number : PyNumber float := {
  of_int := float_of_int;
  float_0_033 := 0x1.0e5604189374cp-5%float;
  num_add := PrimFloat.add;
  num_sub := PrimFloat.sub;
  num_mul := PrimFloat.mul;
  true_div := PrimFloat.div;
  num_eqb := PrimFloat.eqb;
  num_leb := PrimFloat.leb;
  num_ltb := PrimFloat.ltb;
  int_of := float_int_of
}.

(** ** Activities *)

(** The fields of an activity record that the analyzer reads.  Every access
    in the source is [activity.get(key)] or [activity.get(key, default)], so
    an absent key is a value of its own: [None]. *)
Record activity (R : Type) : Type := {
  type_ : option string;
  sport_type : option string;
  distance : option R;
  moving_time : option R;
  total_elevation_gain : option R;
  gear_id : option string;
  workout_type : option Z;
  name : option string
}.

Arguments type_ {R} _.
Arguments sport_type {R} _.
Arguments distance {R} _.
Arguments moving_time {R} _.
Arguments total_elevation_gain {R} _.
Arguments gear_id {R} _.
Arguments workout_type {R} _.
Arguments name {R} _.

(** [d.get(key, default)] *)
Definition get {A : Type} (field : option A) (default : A) : A :=
  match field with
  | Some v => v
  | None => default
  end.

(** The seven entries of the dict built by [calculate_shoe_statistics]. *)
Record shoe_statistics (R : Type) : Type := {
  activity_count : nat;
  total_distance_km : R;
  average_pace_min_per_km : R;
  estimated_gap_min_per_km : R;
  non_race_count : nat;
  average_pace_non_race_min_per_km : R;
  estimated_gap_non_race_min_per_km : R
}.

Arguments activity_count {R} _.
Arguments total_distance_km {R} _.
Arguments average_pace_min_per_km {R} _.
Arguments estimated_gap_min_per_km {R} _.
Arguments non_race_count {R} _.
Arguments average_pace_non_race_min_per_km {R} _.
Arguments estimated_gap_non_race_min_per_km {R} _.

(** ** Strings *)

(** [str.lower] belongs to the Python runtime; it is a parameter of the
    classifier.  [ascii_lower] is its restriction to ASCII text. *)
Class StrLower : Type := str_lower : string -> string.

Definition ascii_lower_char (c : ascii) : ascii :=
  let n := nat_of_ascii c in
  if (65 <=? n)%nat && (n <=? 90)%nat then ascii_of_nat (n + 32) else c.

Fixpoint ascii_lower_string (s : string) : string :=
  match s with
  | EmptyString => EmptyString
  | String c s' => String (ascii_lower_char c) (ascii_lower_string s')
  end.

#[export] Instance ascii_lower : StrLower := ascii_lower_string.

(** [keyword in name] on strings: [keyword] occurs as a contiguous block. *)
Fixpoint contains (keyword s : string) : bool :=
  if prefix keyword s then true
  else match s with
       | EmptyString => false
       | String _ s' => contains keyword s'
       end.

(** [f"{z}"] for an int. *)
Definition str_of_int (z : Z) : string := NilZero.string_of_int (Z.to_int z).

(** [f"{z:02d}"]: at least two characters, filled with zeros on the left.
    A negative int already has two characters, its sign and a digit. *)
Definition format_02d (z : Z) : string :=
  let s := str_of_int z in
  if (String.length s <? 2)%nat then String "0" s else s.

(** ** The analyzer *)

Section Analyzer.

Context {R : Type} `{PyNumber R} {L : StrLower}.

Local Open Scope py_scope.
Local Open Scope string_scope.

Local Notation "0" := (of_int 0%Z) : py_scope.
Local Notation "1" := (of_int 1%Z) : py_scope.
Local Notation "60" := (of_int 60%Z) : py_scope.
Local Notation "100" := (of_int 100%Z) : py_scope.
Local Notation "1000" := (of_int 1000%Z) : py_scope.

Definition running_types : list string := ["Run"; "TrailRun"; "VirtualRun"].

(** [value in running_types], [value] being the result of a [.get] without
    default: [None] is in no set of strings. *)
Definition in_types (value : option string) (types : list string) : bool :=
  match value with
  | Some s => existsb (String.eqb s) types
  | None => false
  end.

Definition is_running_activity (a : activity R) : bool :=
  in_types (type_ a) running_types || in_types (sport_type a) running_types.

Definition filter_running_activities (activities : list (activity R))
  : list (activity R) :=
  filter is_running_activity activities.

(** *** Grouping *)

(** [grouped[key].append(activity)] on a [defaultdict(list)]: the list of an
    existing key grows at its end, a new key enters after all others. *)
Fixpoint append_to (grouped : list (string * list (activity R)))
  (key : string) (a : activity R) : list (string * list (activity R)) :=
  match grouped with
  | [] => [(key, [a])]
  | (k, g) :: rest =>
      if String.eqb k key then (k, (g ++ [a])%list) :: rest
      else (k, g) :: append_to rest key a
  end.

(** The truth value of [activity.get("gear_id")]: [None] and the empty
    string are false. *)
Definition truthy (value : option string) : bool :=
  match value with
  | Some s => negb (String.eqb s "")
  | None => false
  end.

Definition group_by_gear (activities : list (activity R))
  : list (string * list (activity R)) :=
  fold_left
    (fun grouped a =>
       let gear_id := gear_id a in
       if truthy gear_id
       then append_to grouped (get gear_id "") a
       else append_to grouped "no_gear" a)
    activities [].

(** *** Average pace *)

(** The [for] loop of [calculate_average_pace], its two accumulators made
    explicit. *)
Fixpoint average_pace_loop (activities : list (activity R))
  (total_distance_m total_time_s : R) : R * R :=
  match activities with
  | [] => (total_distance_m, total_time_s)
  | a :: rest =>
      let distance := get (distance a) 0 in
      let moving_time := get (moving_time a) 0 in
      if (distance <= 0) || (moving_time <= 0)
      then average_pace_loop rest total_distance_m total_time_s
      else average_pace_loop rest (total_distance_m + distance)
                                  (total_time_s + moving_time)
  end.

(** The conversion to minutes per kilometre that ends both estimators. *)
Definition minutes_per_km (total_distance_m total_time_s : R) : result R :=
  if total_distance_m == 0 then Ok 0
  else
    let* km := total_distance_m / 1000 in
    let* pace_seconds_per_km := total_time_s / km in
    pace_seconds_per_km / 60.

Definition calculate_average_pace (activities : list (activity R)) : result R :=
  let '(total_distance_m, total_time_s) := average_pace_loop activities 0 0 in
  minutes_per_km total_distance_m total_time_s.

(** *** Estimated grade adjusted pace *)

Definition ADJUSTMENT_COEFFICIENT : R := float_0_033.

(** The body of the [for] loop of [calculate_estimated_gap] below its
    [continue]: the flat-equivalent time of one activity. *)
Definition adjusted_time_of (distance moving_time elevation_gain : R)
  : result R :=
  let* grade_percent :=
    (if distance > 0
     then let* ratio := elevation_gain / distance in Ok (ratio * 100)
     else Ok 0) in
  let elevation_factor := 1 + grade_percent * ADJUSTMENT_COEFFICIENT in
  moving_time / elevation_factor.

Fixpoint estimated_gap_loop (activities : list (activity R))
  (total_distance_m total_adjusted_time_s : R) : result (R * R) :=
  match activities with
  | [] => Ok (total_distance_m, total_adjusted_time_s)
  | a :: rest =>
      let distance := get (distance a) 0 in
      let moving_time := get (moving_time a) 0 in
      let elevation_gain := get (total_elevation_gain a) 0 in
      if (distance <= 0) || (moving_time <= 0)
      then estimated_gap_loop rest total_distance_m total_adjusted_time_s
      else
        let* adjusted_time :=
          adjusted_time_of distance moving_time elevation_gain in
        estimated_gap_loop rest (total_distance_m + distance)
                                (total_adjusted_time_s + adjusted_time)
  end.

Definition calculate_estimated_gap (activities : list (activity R))
  : result R :=
  let* (total_distance_m, total_adjusted_time_s) :=
    estimated_gap_loop activities 0 0 in
  minutes_per_km total_distance_m total_adjusted_time_s.

(** *** Formatting *)

Definition format_pace (pace_minutes : R) : result string :=
  if pace_minutes == 0 then Ok "0:00"
  else
    let* minutes := int_of pace_minutes in
    let* seconds := int_of ((pace_minutes - of_int minutes) * 60) in
    Ok (str_of_int minutes ++ ":" ++ format_02d seconds).

(** *** Races *)

Definition race_keywords : list string :=
  ["race"; "parkrun"; "marathon"; "half marathon"; "10k race"; "5k race"].

Definition is_race (a : activity R) : bool :=
  match workout_type a with
  | Some 1%Z => true
  | _ =>
      let name := str_lower (get (name a) "") in
      existsb (fun keyword => contains keyword name) race_keywords
  end.

Definition filter_non_race_activities (activities : list (activity R))
  : list (activity R) :=
  filter (fun a => negb (is_race a)) activities.

(** *** Statistics of one shoe *)

(** [sum(a.get("distance", 0) for a in activities)] *)
Definition sum_distance (activities : list (activity R)) : R :=
  fold_left (fun acc a => acc + get (distance a) 0) activities 0.

Definition calculate_shoe_statistics (activities : list (activity R))
  : result (shoe_statistics R) :=
  let total_distance_m := sum_distance activities in
  let* total_distance_km := total_distance_m / 1000 in
  let non_race_activities := filter_non_race_activities activities in
  let* average_pace := calculate_average_pace activities in
  let* estimated_gap := calculate_estimated_gap activities in
  let* average_pace_non_race := calculate_average_pace non_race_activities in
  let* estimated_gap_non_race :=
    calculate_estimated_gap non_race_activities in
  Ok {| activity_count := List.length activities;
        total_distance_km := total_distance_km;
        average_pace_min_per_km := average_pace;
        estimated_gap_min_per_km := estimated_gap;
        non_race_count := List.length non_race_activities;
        average_pace_non_race_min_per_km := average_pace_non_race;
        estimated_gap_non_race_min_per_km := estimated_gap_non_race |}.

End Analyzer.

(** ** Definitions used by the statements *)

Section Statements.

Context {R : Type} `{PyNumber R}.

Local Open Scope py_scope.

(** The test guarding the [continue] of both loops. *)
Definition skipped (a : activity R) : bool :=
  (get (distance a) (of_int 0) <= of_int 0)
  || (get (moving_time a) (of_int 0) <= of_int 0).



(** A computation on every element in turn, stopping at the first
    exception. *)
Fixpoint map_result {A B : Type} (f : A -> result B) (l : list A)
  : result (list B) :=
  match l with
  | [] => Ok []
  | x :: rest =>
      let* y := f x in
      let* ys := map_result f rest in
      Ok (y :: ys)
  end.

(** The gearKey of an activity: its equipment id if present and non-empty,
    else the sentinel. *)
Definition gear_key (a : activity R) : string :=
  match gear_id a with
  | Some g => if String.eqb g "" then "no_gear"%string else g
  | None => "no_gear"%string
  end.

(** The group stored under a key, if any. *)
Fixpoint lookup (key : string) (grouped : list (string * list (activity R)))
  : option (list (activity R)) :=
  match grouped with
  | [] => None
  | (k, g) :: rest => if String.eqb k key then Some g else lookup key rest
  end.

(** What the accumulated dict holds once the activities of [seen] have gone
    through the loop: distinct keys, and under each key the activities of
    that gearKey in the order they came. *)
Definition groups_of (seen : list (activity R))
  (grouped : list (string * list (activity R))) : Prop :=
  NoDup (map fst grouped)
  /\ forall k,
       lookup k grouped
       = match filter (fun a => String.eqb (gear_key a) k) seen with
         | [] => None
         | g => Some g
         end.

End Statements.

(** ** The specification's formulas, over the rationals *)

Module Spec.

Local Open Scope Q_scope.












End Spec.

(** ** Concrete activities *)

Module Examples.

Local Open Scope string_scope.

(** An activity that has only the three numeric fields. *)
Definition run {R : Type} (d t g : R) : activity R :=
  {| type_ := Some "Run"; sport_type := Some "Run";
     distance := Some d; moving_time := Some t;
     total_elevation_gain := Some g;
     gear_id := None; workout_type := None; name := None |}.

(** An activity that has only a name and, possibly, a workout type. *)
Definition named {R : Type} (wt : option Z) (nm : string) : activity R :=
  {| type_ := None; sport_type := None;
     distance := None; moving_time := None; total_elevation_gain := None;
     gear_id := None; workout_type := wt; name := Some nm |}.

(** An activity that has only a name and, possibly, a gear id. *)
Definition shod {R : Type} (gear : option string) (nm : string)
  : activity R :=
  {| type_ := None; sport_type := None;
     distance := None; moving_time := None; total_elevation_gain := None;
     gear_id := gear; workout_type := None; name := Some nm |}.



(** 1 km in 300 s with a gain of -1000 m: the elevation factor is -2.3. *)
Definition steep_Q : activity Q := run 1000%Q 300%Q (-1000)%Q.

(** A stretch with no distance. *)
Definition standstill : activity Q := run 0%Q 600%Q 0%Q.

End Examples.

(** ** Further notions for the statements *)

Module Measure.

Local Open Scope Q_scope.




End Measure.

(** ** Dicts with string keys *)

(** A [dict] as the list of its items in insertion order.  [d[key] = v]
    replaces the value of a key that is there and keeps its place; a new
    key goes to the end. *)
Fixpoint dict_set {V : Type} (d : list (string * V)) (key : string) (v : V)
  : list (string * V) :=
  match d with
  | [] => [(key, v)]
  | (k, x) :: rest =>
      if String.eqb k key then (k, v) :: rest
      else (k, x) :: dict_set rest key v
  end.

(** [d.get(key)], [None] when the key is absent. *)
Fixpoint dict_get {V : Type} (d : list (string * V)) (key : string)
  : option V :=
  match d with
  | [] => None
  | (k, x) :: rest => if String.eqb k key then Some x else dict_get rest key
  end.

(** ** Gear names (analyzer.py, [get_gear_names]) *)

(** What [client.get_gear] answers: the gear record, of which only the key
    "name" is read, or an exception, of which only the text is printed. *)
Record gear : Type := { gear_name : option string }.

Section GearNames.

(** The remote service is a state [W] on which every request acts. *)
Context {W : Type}.
Variable client_get_gear : string -> W -> (string + gear) * W.

Local Open Scope string_scope.

Definition unknown_shoe (gear_id : string) : string :=
  "Unknown Shoe (" ++ gear_id ++ ")".

(** The loop of [get_gear_names]: the dict built so far, the lines printed
    so far and the state of the service. *)
Fixpoint get_gear_names_loop (gear_ids : list string)
  (gear_names : list (string * string)) (printed : list string) (w : W)
  : list (string * string) * list string * W :=
  match gear_ids with
  | [] => (gear_names, printed, w)
  | gear_id :: rest =>
      if String.eqb gear_id "no_gear"
      then get_gear_names_loop rest
             (dict_set gear_names gear_id "No Shoe Recorded") printed w
      else
        match client_get_gear gear_id w with
        | (inr gear, w') =>
            let name := get (gear_name gear) (unknown_shoe gear_id) in
            get_gear_names_loop rest (dict_set gear_names gear_id name)
                                printed w'
        | (inl e, w') =>
            get_gear_names_loop rest
              (dict_set gear_names gear_id (unknown_shoe gear_id))
              (printed ++ [("Warning: Could not fetch gear " ++ gear_id
                            ++ ": " ++ e)%string])%list
              w'
        end
  end.

Definition get_gear_names (gear_ids : list string) (w : W)
  : list (string * string) * list string * W :=
  get_gear_names_loop gear_ids [] [] w.

(** The requests [get_gear_names] makes, in order: one for each id but the
    sentinel. *)
Fixpoint requests (gear_ids : list string) (w : W) : W :=
  match gear_ids with
  | [] => w
  | gear_id :: rest =>
      if String.eqb gear_id "no_gear" then requests rest w
      else requests rest (snd (client_get_gear gear_id w))
  end.

(** Where the name under a key comes from: the sentinel has its fixed
    name; any other id has its fallback or the name of a gear the service
    answered for it. *)
Definition named_by (k n : string) : Prop :=
  (k = "no_gear" /\ n = "No Shoe Recorded")
  \/ (k <> "no_gear"
      /\ (n = unknown_shoe k
          \/ exists g w0 w1,
               client_get_gear k w0 = (inr g, w1) /\ gear_name g = Some n)).

End GearNames.

(** ** The analysis of main.py *)

(** One entry of [results]: the statistics of a shoe and the keys [main]
    adds to them. *)
Record shoe_row (R : Type) : Type := {
  stats : shoe_statistics R;
  row_gear_id : string;
  row_gear_name : string;
  formatted_pace : string;
  formatted_gap : string;
  formatted_pace_non_race : string;
  formatted_gap_non_race : string
}.

Arguments stats {R} _.
Arguments row_gear_id {R} _.
Arguments row_gear_name {R} _.
Arguments formatted_pace {R} _.
Arguments formatted_gap {R} _.
Arguments formatted_pace_non_race {R} _.
Arguments formatted_gap_non_race {R} _.

Section Main.

Context {R : Type} `{PyNumber R} {L : StrLower}.

Local Open Scope py_scope.
Local Open Scope string_scope.

(** The body of the loop over [grouped_activities.items()]. *)
Definition shoe_row_of (gear_names : list (string * string))
  (gear_id : string) (activities : list (activity R))
  : result (shoe_row R) :=
  let* s := calculate_shoe_statistics activities in
  let gear_name :=
    get (dict_get gear_names gear_id) ("Unknown (" ++ gear_id ++ ")") in
  let* fp := format_pace (average_pace_min_per_km s) in
  let* fg := format_pace (estimated_gap_min_per_km s) in
  let* fpn := format_pace (average_pace_non_race_min_per_km s) in
  let* fgn := format_pace (estimated_gap_non_race_min_per_km s) in
  Ok {| stats := s;
        row_gear_id := gear_id;
        row_gear_name := gear_name;
        formatted_pace := fp;
        formatted_gap := fg;
        formatted_pace_non_race := fpn;
        formatted_gap_non_race := fgn |}.

(** [main] from the filter on, its progress messages left out: [None] is
    the exit for lack of running activities, otherwise the [results] handed
    to [display_results], with what [get_gear_names] printed and the state
    of the service.  An exception leaves [main]. *)
Definition main_results {W : Type}
  (client_get_gear : string -> W -> (string + gear) * W)
  (all_activities : list (activity R)) (w : W)
  : result (option (list (shoe_row R) * list string * W)) :=
  let running_activities := filter_running_activities all_activities in
  match running_activities with
  | [] => Ok None
  | _ =>
      let grouped_activities := group_by_gear running_activities in
      let '(gear_names, printed, w') :=
        get_gear_names client_get_gear (map fst grouped_activities) w in
      let* results :=
        map_result (fun '(gear_id, activities) =>
                      shoe_row_of gear_names gear_id activities)
                   grouped_activities in
      Ok (Some (results, printed, w'))
  end.

(** [results.sort(key=lambda x: x['total_distance_km'], reverse=True)] of
    [display_results]: a stable sort, largest distance first, rows of
    equal distance staying in the order they had. *)
Fixpoint insert_by_distance (row : shoe_row R) (sorted : list (shoe_row R))
  : list (shoe_row R) :=
  match sorted with
  | [] => [row]
  | r :: rest =>
      if total_distance_km (stats r) > total_distance_km (stats row)
      then r :: insert_by_distance row rest
      else row :: r :: rest
  end.

Definition sort_by_distance (results : list (shoe_row R))
  : list (shoe_row R) :=
  fold_right insert_by_distance [] results.

End Main.

(** A service for the examples: it knows no gear and has no state. *)
Definition no_service (gear_id : string) (w : unit)
  : (string + gear) * unit :=
  (inl "404 Client Error"%string, w).

(** Two runs in the same shoe and one without a shoe. *)
Definition sample_activities : list (activity Q) :=
  [ {| type_ := Some "Run"%string; sport_type := None;
       distance := Some 5000%Q; moving_time := Some 1500%Q;
       total_elevation_gain := Some 50%Q;
       gear_id := Some "g1"%string; workout_type := None;
       name := Some "Morning Run"%string |};
    {| type_ := Some "Ride"%string; sport_type := None;
       distance := Some 20000%Q; moving_time := Some 3600%Q;
       total_elevation_gain := None;
       gear_id := Some "b1"%string; workout_type := None;
       name := Some "Commute"%string |};
    {| type_ := None; sport_type := Some "TrailRun"%string;
       distance := Some 12000%Q; moving_time := Some 4800%Q;
       total_elevation_gain := Some 400%Q;
       gear_id := None; workout_type := None;
       name := Some "Hills"%string |};
    {| type_ := Some "Run"%string; sport_type := Some "Run"%string;
       distance := Some 10000%Q; moving_time := Some 2700%Q;
       total_elevation_gain := None;
       gear_id := Some "g1"%string; workout_type := Some 1%Z;
       name := Some "City 10k"%string |} ].

(** ** The client (strava_client.py) *)

Section Client.

(** The remote service: a state [W] on which a GET of the activities
    endpoint acts, answering the decoded body or an exception, of which
    only the text matters.  [A] is the type of an activity record. *)
Context {W A : Type}.
Variable session_get_activities :
  list (string * Z) -> W -> (string + list A) * W.

Local Open Scope string_scope.

(** [StravaClient.get_activities]: the query parameters, then the GET. *)
Definition get_activities (after before : option Z) (page per_page : Z)
  (w : W) : (string + list A) * W :=
  let params := [("page", page); ("per_page", per_page)] in
  let params :=
    match after with
    | Some t => dict_set params "after" t
    | None => params
    end in
  let params :=
    match before with
    | Some t => dict_set params "before" t
    | None => params
    end in
  session_get_activities params w.

(** The [while True] loop of [get_all_activities_since], bounded by
    [fuel] turns: [None] when they do not suffice.  The state is the list
    collected so far, the page number, the lines printed and the service.
    The pause between two requests leaves no trace in it. *)
Fixpoint fetch_pages (fuel : nat) (after_timestamp : Z) (page : Z)
  (all_activities : list A) (printed : list string) (w : W)
  : option ((string + list A) * list string * W) :=
  match fuel with
  | O => None
  | S fuel' =>
      let printed :=
        (printed ++ [("Fetching activities page " ++ str_of_int page
                      ++ "...")%string])%list in
      match get_activities (Some after_timestamp) None page 200 w with
      | (inl e, w') => Some (inl e, printed, w')
      | (inr activities, w') =>
          match activities with
          | [] => Some (inr all_activities, printed, w')
          | _ =>
              let all_activities := (all_activities ++ activities)%list in
              if (List.length activities <? 200)%nat
              then Some (inr all_activities, printed, w')
              else fetch_pages fuel' after_timestamp (page + 1)
                               all_activities printed w'
          end
      end
  end.

(** [get_all_activities_since], from the timestamp on. *)
Definition get_all_activities_since (fuel : nat) (after_timestamp : Z)
  (w : W) : option ((string + list A) * list string * W) :=
  fetch_pages fuel after_timestamp 1 [] [] w.

End Client.

(** A service that holds the activities [stored] and pages them as asked,
    whatever the timestamp: page [p] of size [n] is the [n] items after the
    first [(p - 1) * n]. *)
Definition paging_service {A : Type} (stored : list A)
  (params : list (string * Z)) (w : unit) : (string + list A) * unit :=
  let page := get (dict_get params "page") 1%Z in
  let per_page := get (dict_get params "per_page") 30%Z in
  (inr (firstn (Z.to_nat per_page)
               (skipn (Z.to_nat ((page - 1) * per_page)) stored)), w).

(** ** Splitting strings *)

Section Splitting.

Local Open Scope string_scope.

(** [s[n:]] *)
Fixpoint drop (n : nat) (s : string) : string :=
  match n, s with
  | O, _ => s
  | S n', String _ s' => drop n' s'
  | S _, EmptyString => EmptyString
  end.

(** The text before and after the first occurrence of [sep] in [s]:
    [s.partition(sep)] when [sep] occurs. *)
Fixpoint break_at (sep s : string) : option (string * string) :=
  if prefix sep s then Some ("", drop (String.length sep) s)
  else
    match s with
    | EmptyString => None
    | String c s' =>
        match break_at sep s' with
        | Some (before, after) => Some (String c before, after)
        | None => None
        end
    end.

(** [s.split(sep)] for a separator that is not empty: cut at the first
    occurrence, go on after it.  Every cut shortens [s], so [fuel] turns
    are enough when [fuel] is above the length of [s]. *)
Fixpoint split_fuel (fuel : nat) (sep s : string) : list string :=
  match break_at sep s with
  | None => [s]
  | Some (before, after) =>
      match fuel with
      | O => [before; after]
      | S fuel' => before :: split_fuel fuel' sep after
      end
  end.

Definition split (sep s : string) : list string :=
  split_fuel (String.length s) sep s.

(** [s.split(sep, 1)]: at most one cut. *)
Definition split_once (sep s : string) : list string :=
  match break_at sep s with
  | None => [s]
  | Some (before, after) => [before; after]
  end.

End Splitting.

(** ** The authorization code (main.py, [ensure_authentication]) *)

(** An item of a list, or the exception of an index out of range. *)
Inductive indexed (A : Type) : Type :=
| Item (a : A)
| IndexError.

Arguments Item {A} a.
Arguments IndexError {A}.

(** [l[i]] *)
Definition index {A : Type} (l : list A) (i : nat) : indexed A :=
  match nth_error l i with
  | Some a => Item a
  | None => IndexError
  end.

(** What [ensure_authentication] makes of the text the user pasted, once
    stripped. *)
Definition extract_code (redirect_url : string) : indexed string :=
  if contains "code=" redirect_url
  then
    match index (split "code=" redirect_url) 1 with
    | Item part => index (split "&" part) 0
    | IndexError => IndexError
    end
  else Item redirect_url.

(** No character of [s] is one of [chars]. *)
Fixpoint free_of (chars : list ascii) (s : string) : bool :=
  match s with
  | EmptyString => true
  | String c s' =>
      negb (existsb (Ascii.eqb c) chars) && free_of chars s'
  end.

(** ** The .env file (auth.py) *)

(** Text is a sequence of characters with code points below 256.  The
    file is a value of [option string], [None] when it does not exist;
    errors of the operating system are left out. *)

Section EnvFile.

Local Open Scope string_scope.

(** [c.isspace()] on these code points: tab to carriage return, the four
    separators 28 to 31, the space, next line and the no-break space. *)
Definition is_space (c : ascii) : bool :=
  let n := nat_of_ascii c in
  ((9 <=? n) && (n <=? 13) || (28 <=? n) && (n <=? 32)
   || (n =? 133) || (n =? 160))%nat.

Fixpoint lstrip (s : string) : string :=
  match s with
  | EmptyString => EmptyString
  | String c s' => if is_space c then lstrip s' else s
  end.

Fixpoint rstrip (s : string) : string :=
  match s with
  | EmptyString => EmptyString
  | String c s' =>
      match rstrip s' with
      | EmptyString => if is_space c then EmptyString else String c EmptyString
      | r => String c r
      end
  end.

(** [s.strip()] *)
Definition strip (s : string) : string := lstrip (rstrip s).

(** [for line in f] on a file opened for reading as text: a line ends
    with its line feed, a carriage return and a carriage return followed
    by a line feed being read as one line feed; the last line may lack
    it.  [current] is the line being read. *)
Fixpoint read_lines (content current : string) (after_cr : bool)
  : list string :=
  match content with
  | EmptyString =>
      match current with
      | EmptyString => []
      | _ => [current]
      end
  | String c rest =>
      if Ascii.eqb c "010" then
        if after_cr then read_lines rest current false
        else (current ++ String "010" "") :: read_lines rest "" false
      else if Ascii.eqb c "013" then
        (current ++ String "010" "") :: read_lines rest "" true
      else read_lines rest (current ++ String c "") false
  end.

Definition file_lines (content : string) : list string :=
  read_lines content "" false.

(** [key, value = parts] *)
Definition unpack2 (parts : list string) : result (string * string) :=
  match parts with
  | [key; value] => Ok (key, value)
  | _ => Raise ValueError
  end.

(** The test every loop over the file makes on a stripped line. *)
Definition is_setting (line : string) : bool :=
  negb (String.eqb line "") && negb (prefix "#" line) && contains "=" line.

(** [int(value)] on text: blanks around, a sign, and decimal digits that
    single underscores may separate. *)
Definition digit_of (c : ascii) : option Z :=
  let n := nat_of_ascii c in
  if ((48 <=? n) && (n <=? 57))%nat then Some (Z.of_nat (n - 48)) else None.

Fixpoint parse_digits (s : string) (acc : Z) (after_digit : bool)
  : option Z :=
  match s with
  | EmptyString => if after_digit then Some acc else None
  | String c rest =>
      match digit_of c with
      | Some d => parse_digits rest (10 * acc + d) true
      | None =>
          if Ascii.eqb c "_" && after_digit
          then parse_digits rest acc false
          else None
      end
  end.

Definition py_int (text : string) : result Z :=
  let text := strip text in
  let '(negative, digits) :=
    match text with
    | String "-" rest => (true, rest)
    | String "+" rest => (false, rest)
    | _ => (false, text)
    end in
  match parse_digits digits 0 false with
  | Some n => Ok (if negative then (- n)%Z else n)
  | None => Raise ValueError
  end.

(** The tokens as the service sends them and as [load_tokens] returns
    them: a dict with up to three keys. *)
Record tokens : Type := {
  access_token : option string;
  refresh_token : option string;
  expires_at : option Z
}.

Record credentials : Type := {
  client_id : option string;
  client_secret : option string
}.

Local Open Scope py_scope.

(** The reading loop of [save_tokens]. *)
Fixpoint read_env (lines : list string) (env_content : list (string * string))
  : result (list (string * string)) :=
  match lines with
  | [] => Ok env_content
  | line :: rest =>
      let line := strip line in
      if is_setting line then
        let* (key, value) := unpack2 (split_once "=" line) in
        read_env rest (dict_set env_content key value)
      else read_env rest env_content
  end.

(** What the writing loop of [save_tokens] writes. *)
Fixpoint env_text (env_content : list (string * string)) : string :=
  match env_content with
  | [] => ""
  | (key, value) :: rest =>
      (key ++ "=" ++ value ++ String "010" "") ++ env_text rest
  end.

Definition save_tokens (t : tokens) (env_file : option string)
  : result string :=
  let* env_content :=
    match env_file with
    | Some content => read_env (file_lines content) []
    | None => Ok []
    end in
  let env_content :=
    dict_set env_content "STRAVA_ACCESS_TOKEN" (get (access_token t) "") in
  let env_content :=
    dict_set env_content "STRAVA_REFRESH_TOKEN" (get (refresh_token t) "") in
  let env_content :=
    dict_set env_content "STRAVA_TOKEN_EXPIRES_AT"
             match expires_at t with
             | Some e => str_of_int e
             | None => ""
             end in
  Ok (env_text env_content).

(** The loop of [load_tokens]. *)
Fixpoint load_tokens_loop (lines : list string) (t : tokens)
  : result tokens :=
  match lines with
  | [] => Ok t
  | line :: rest =>
      let line := strip line in
      if is_setting line then
        let* (key, value) := unpack2 (split_once "=" line) in
        if String.eqb key "STRAVA_ACCESS_TOKEN" then
          load_tokens_loop rest
            {| access_token := Some value;
               refresh_token := refresh_token t;
               expires_at := expires_at t |}
        else if String.eqb key "STRAVA_REFRESH_TOKEN" then
          load_tokens_loop rest
            {| access_token := access_token t;
               refresh_token := Some value;
               expires_at := expires_at t |}
        else if String.eqb key "STRAVA_TOKEN_EXPIRES_AT" then
          let* e := (if String.eqb value "" then Ok 0%Z else py_int value) in
          load_tokens_loop rest
            {| access_token := access_token t;
               refresh_token := refresh_token t;
               expires_at := Some e |}
        else load_tokens_loop rest t
      else load_tokens_loop rest t
  end.

Definition load_tokens (env_file : option string) : result (option tokens) :=
  match env_file with
  | None => Ok None
  | Some content =>
      let* t :=
        load_tokens_loop (file_lines content)
          {| access_token := None; refresh_token := None;
             expires_at := None |} in
      match access_token t, refresh_token t with
      | Some _, Some _ => Ok (Some t)
      | _, _ => Ok None
      end
  end.

(** The loop of [load_credentials]. *)
Fixpoint load_credentials_loop (lines : list string) (c : credentials)
  : result credentials :=
  match lines with
  | [] => Ok c
  | line :: rest =>
      let line := strip line in
      if is_setting line then
        let* (key, value) := unpack2 (split_once "=" line) in
        if String.eqb key "STRAVA_CLIENT_ID" then
          load_credentials_loop rest
            {| client_id := Some value; client_secret := client_secret c |}
        else if String.eqb key "STRAVA_CLIENT_SECRET" then
          load_credentials_loop rest
            {| client_id := client_id c; client_secret := Some value |}
        else load_credentials_loop rest c
      else load_credentials_loop rest c
  end.

Definition load_credentials (env_file : option string)
  : result (option credentials) :=
  match env_file with
  | None => Ok None
  | Some content =>
      let* c :=
        load_credentials_loop (file_lines content)
          {| client_id := None; client_secret := None |} in
      match client_id c, client_secret c with
      | Some _, Some _ => Ok (Some c)
      | _, _ => Ok None
      end
  end.

(** The settings of a list of lines, in order: for each line that passes
    the test, its key and value. *)
Fixpoint settings (lines : list string) : list (string * string) :=
  match lines with
  | [] => []
  | line :: rest =>
      let line := strip line in
      if is_setting line then
        match break_at "=" line with
        | Some (key, value) => (key, value) :: settings rest
        | None => settings rest
        end
      else settings rest
  end.

(** A key and a value that come back from the file as they went in: the
    key begins with neither a blank nor '#' and holds no '=' and no line
    break; the value ends with no blank and holds no line break. *)
Definition clean_key (key : string) : bool :=
  match key with
  | EmptyString => true
  | String c _ => negb (is_space c) && negb (Ascii.eqb c "#")
  end
  && free_of ["="; "010"; "013"]%char key.

Fixpoint ends_clean (s : string) : bool :=
  match s with
  | EmptyString => true
  | String c EmptyString => negb (is_space c)
  | String _ s' => ends_clean s'
  end.

Definition clean_value (value : string) : bool :=
  ends_clean value && free_of ["010"; "013"]%char value.

End EnvFile.

(** The line the writing loop of [save_tokens] writes for an item, and
    the items that come back as they went in. *)
Definition env_line (item : string * string) : string :=
  (fst item ++ "=" ++ snd item ++ String "010" "")%string.

Definition clean_item (item : string * string) : bool :=
  clean_key (fst item) && clean_value (snd item).

(** No character of [s] is a blank. *)
Fixpoint no_blank (s : string) : bool :=
  match s with
  | EmptyString => true
  | String c s' => negb (is_space c) && no_blank s'
  end.

(** Tokens as the service sends them, and a file with a comment, the two
    credentials, an old token and a line that is no setting. *)
Definition sample_tokens : tokens :=
  {| access_token := Some "a1b2c3"%string;
     refresh_token := Some "d4e5f6"%string;
     expires_at := Some 1700000000%Z |}.

Definition sample_env : string :=
  ("# Strava" ++ String "010" ""
   ++ "STRAVA_CLIENT_ID=12345" ++ String "013" (String "010" "")
   ++ "  STRAVA_CLIENT_SECRET=s3cr3t " ++ String "010" ""
   ++ "STRAVA_ACCESS_TOKEN=old" ++ String "010" ""
   ++ "to do")%string.

(** * Properties *)

(** ** The two loops, for any kind of number *)

Section Loops.

Context {R : Type} `{PyNumber R}.


(** An activity that is skipped leaves the accumulators of the pace loop
    as they were. *)
Lemma average_pace_loop_skip (l1 l2 : list (activity R)) (a : activity R) :
  skipped a = true ->
  forall D T,
    average_pace_loop (l1 ++ a :: l2) D T = average_pace_loop (l1 ++ l2) D T.
Proof.
  intros Ha. induction l1 as [|b l1 IH]; intros D T; simpl.
  - unfold skipped in Ha. rewrite Ha. reflexivity.
  - destruct (_ || _); apply IH.
Qed.

Lemma estimated_gap_loop_skip (l1 l2 : list (activity R)) (a : activity R) :
  skipped a = true ->
  forall D T,
    estimated_gap_loop (l1 ++ a :: l2) D T = estimated_gap_loop (l1 ++ l2) D T.
Proof.
  intros Ha. induction l1 as [|b l1 IH]; intros D T; simpl.
  - unfold skipped in Ha. rewrite Ha. reflexivity.
  - destruct (_ || _); [apply IH|].
    destruct (adjusted_time_of _ _ _); simpl; [apply IH | reflexivity].
Qed.



End Loops.

(** C5. An activity with distance <= 0 or moving_time <= 0 contributes
    nothing: taking it out of the list, wherever it stands, changes neither
    the average pace nor the estimated GAP.  This holds for every kind of
    number, the test being the one the loops make. *)
Theorem skipped_activity_is_removable
  (R : Type) (N : PyNumber R) (l1 l2 : list (activity R)) (a : activity R) :
  skipped a = true ->
  calculate_average_pace (l1 ++ a :: l2) = calculate_average_pace (l1 ++ l2)
  /\ calculate_estimated_gap (l1 ++ a :: l2)
     = calculate_estimated_gap (l1 ++ l2).
Proof.
  intros Ha. split.
  - unfold calculate_average_pace.
    rewrite (average_pace_loop_skip l1 l2 a Ha). reflexivity.
  - unfold calculate_estimated_gap.
    rewrite (estimated_gap_loop_skip l1 l2 a Ha). reflexivity.
Qed.

Lemma skipped_activity_is_removable_witness :
  skipped Examples.standstill = true
  /\ calculate_average_pace
       ([Examples.steep_Q] ++ Examples.standstill :: [Examples.steep_Q])
     = calculate_average_pace ([Examples.steep_Q] ++ [Examples.steep_Q])
  /\ calculate_estimated_gap
       ([Examples.steep_Q] ++ Examples.standstill :: [Examples.steep_Q])
     = calculate_estimated_gap ([Examples.steep_Q] ++ [Examples.steep_Q]).
Proof.
  split; [reflexivity|].
  apply (@skipped_activity_is_removable Q Q_number
           [Examples.steep_Q] [Examples.steep_Q] Examples.standstill).
  reflexivity.
Defined.

(** ** Exact arithmetic *)

Section Rationals.

Local Open Scope Q_scope.

















End Rationals.



(** ** When the estimated GAP returns, and its sign *)

Section Returns.

Local Open Scope Q_scope.













End Returns.

(** ** Statistics of one shoe *)

Section Statistics.

Context {L : StrLower}.

Local Open Scope Q_scope.






End Statistics.




(** The rationals are what the claim speaks of.  Binary64 has one more way
    to a zero divisor: a distance so small that a thousandth of it is 0. *)
Remark average_pace_binary64_underflow :
  calculate_average_pace [Examples.run 0x1p-1074%float 1%float 0%float]
  = Raise ZeroDivisionError.
Proof. vm_compute. reflexivity. Qed.







(** ** Grouping by gear *)

Section Grouping.

Context {R : Type}.

Implicit Types (grouped : list (string * list (activity R))).
Implicit Types (a : activity R) (k key : string).

Local Open Scope string_scope.

(** Both branches of the loop body append under the gearKey. *)
Lemma group_step grouped a :
  (if truthy (gear_id a)
   then append_to grouped (get (gear_id a) "") a
   else append_to grouped "no_gear" a)
  = append_to grouped (gear_key a) a.
Proof.
  unfold gear_key, truthy. destruct (gear_id a) as [g|]; simpl; [|reflexivity].
  destruct (String.eqb g ""); reflexivity.
Qed.

Lemma group_by_gear_fold (l : list (activity R)) :
  group_by_gear l
  = fold_left (fun grouped a => append_to grouped (gear_key a) a) l [].
Proof.
  unfold group_by_gear. generalize (@nil (string * list (activity R))).
  induction l as [|a l IH]; intros grouped; simpl; [reflexivity|].
  rewrite group_step. apply IH.
Qed.

Lemma lookup_append_to grouped key a k :
  lookup k (append_to grouped key a)
  = if String.eqb key k
    then Some (match lookup k grouped with
               | Some g => (g ++ [a])%list
               | None => [a]
               end)
    else lookup k grouped.
Proof.
  induction grouped as [|[k' g] rest IH]; simpl.
  - destruct (String.eqb key k); reflexivity.
  - destruct (String.eqb k' key) eqn:E1; simpl.
    + apply String.eqb_eq in E1. subst k'.
      destruct (String.eqb key k); reflexivity.
    + destruct (String.eqb k' k) eqn:E2.
      * apply String.eqb_eq in E2. subst k'.
        rewrite String.eqb_sym, E1. reflexivity.
      * exact IH.
Qed.

Lemma keys_append_to grouped key a k :
  In k (map fst (append_to grouped key a))
  <-> k = key \/ In k (map fst grouped).
Proof.
  induction grouped as [|[k' g] rest IH]; simpl.
  - intuition congruence.
  - destruct (String.eqb k' key) eqn:E; simpl.
    + apply String.eqb_eq in E. subst k'. intuition congruence.
    + rewrite IH. intuition congruence.
Qed.

Lemma NoDup_append_to grouped key a :
  NoDup (map fst grouped) -> NoDup (map fst (append_to grouped key a)).
Proof.
  induction grouped as [|[k' g] rest IH]; simpl; intros N.
  - constructor; [intros []|constructor].
  - inversion N as [|? ? Hk Nrest]; subst.
    destruct (String.eqb k' key) eqn:E; simpl.
    + constructor; assumption.
    + constructor; [|apply IH, Nrest].
      rewrite keys_append_to. intros [->|C]; [|contradiction].
      rewrite String.eqb_refl in E. discriminate.
Qed.

Lemma concat_append_to grouped key a :
  Permutation (List.concat (map snd (append_to grouped key a)))
              (List.concat (map snd grouped) ++ [a]).
Proof.
  induction grouped as [|[k' g] rest IH]; simpl.
  - reflexivity.
  - destruct (String.eqb k' key); simpl.
    + rewrite <- !app_assoc. apply Permutation_app_head.
      apply Permutation_app_comm.
    + rewrite <- app_assoc. apply Permutation_app_head. exact IH.
Qed.

Lemma groups_of_step seen grouped a :
  groups_of seen grouped ->
  groups_of (seen ++ [a]) (append_to grouped (gear_key a) a).
Proof.
  intros [N Lk]. split; [apply NoDup_append_to, N|].
  intros k. rewrite lookup_append_to, Lk, filter_app. simpl.
  destruct (String.eqb (gear_key a) k).
  - destruct (filter _ seen); reflexivity.
  - rewrite app_nil_r. reflexivity.
Qed.

Lemma groups_of_fold (l seen : list (activity R)) grouped :
  groups_of seen grouped ->
  groups_of (seen ++ l)
    (fold_left (fun grouped a => append_to grouped (gear_key a) a) l grouped).
Proof.
  revert seen grouped.
  induction l as [|a l IH]; intros seen grouped G; simpl.
  - rewrite app_nil_r. exact G.
  - replace (seen ++ a :: l)%list with ((seen ++ [a]) ++ l)%list
      by (rewrite <- app_assoc; reflexivity).
    apply IH, groups_of_step, G.
Qed.

Lemma concat_fold (l : list (activity R)) grouped :
  Permutation
    (List.concat (map snd
       (fold_left (fun grouped a => append_to grouped (gear_key a) a)
                  l grouped)))
    (List.concat (map snd grouped) ++ l).
Proof.
  revert grouped. induction l as [|a l IH]; intros grouped; simpl.
  - rewrite app_nil_r. reflexivity.
  - rewrite IH, concat_append_to, <- app_assoc. reflexivity.
Qed.

Lemma lookup_In grouped k g :
  NoDup (map fst grouped) -> (In (k, g) grouped <-> lookup k grouped = Some g).
Proof.
  induction grouped as [|[k' g'] rest IH]; simpl; intros N.
  - split; [intros []|discriminate].
  - inversion N as [|? ? Hk Nrest]; subst.
    destruct (String.eqb k' k) eqn:E.
    + apply String.eqb_eq in E. subst k'. split.
      * intros [C|C]; [congruence|].
        exfalso. apply Hk. apply in_map_iff. exists (k, g). split; auto.
      * intros C. left. congruence.
    + rewrite <- (IH Nrest). split; [|tauto].
      intros [C|C]; [|exact C].
      injection C as -> _. rewrite String.eqb_refl in E. discriminate.
Qed.

End Grouping.

Lemma group_by_gear_groups_of {R : Type} (l : list (activity R)) :
  groups_of l (group_by_gear l).
Proof.
  rewrite group_by_gear_fold. apply (@groups_of_fold R l [] []).
  split; [constructor|reflexivity].
Qed.

(** C6. Grouping by gear partitions the activities.  The keys are
    distinct; the group of a key is the list of the activities of that
    gearKey (the equipment id when present and non-empty, "no_gear"
    otherwise) in input order, and is never empty; the keys are the
    gearKeys that occur; all groups together hold the input, each activity
    once.  Gear ids [A, null, A, B] give the groups A (first and third),
    "no_gear" (second) and B (fourth). *)
Theorem group_by_gear_partitions (R : Type) (l : list (activity R)) :
  NoDup (map fst (group_by_gear l))
  /\ (forall k g,
        In (k, g) (group_by_gear l)
        <-> g = filter (fun a => String.eqb (gear_key a) k) l /\ g <> [])
  /\ (forall k,
        In k (map fst (group_by_gear l))
        <-> exists a, In a l /\ gear_key a = k)
  /\ Permutation (List.concat (map snd (group_by_gear l))) l
  /\ group_by_gear
       [@Examples.shod R (Some "A"%string) "first";
        Examples.shod None "second";
        Examples.shod (Some "A"%string) "third";
        Examples.shod (Some "B"%string) "fourth"]
     = [("A"%string, [Examples.shod (Some "A"%string) "first";
                      Examples.shod (Some "A"%string) "third"]);
        ("no_gear"%string, [Examples.shod None "second"]);
        ("B"%string, [Examples.shod (Some "B"%string) "fourth"])].
Proof.
  destruct (group_by_gear_groups_of l) as [N Lk].
  assert (Groups : forall k g,
            In (k, g) (group_by_gear l)
            <-> g = filter (fun a => String.eqb (gear_key a) k) l /\ g <> []).
  { intros k g. rewrite (lookup_In _ k g N), Lk.
    destruct (filter _ l) as [|a v].
    - split; [discriminate|]. intros [-> C]. contradiction.
    - split.
      + intros E. injection E as <-. split; [reflexivity|discriminate].
      + intros [-> _]. reflexivity. }
  split; [exact N|]. split; [exact Groups|]. split; [|split].
  - intros k. rewrite in_map_iff. split.
    + intros ([k' g] & E & Hg). simpl in E. subst k'.
      apply Groups in Hg. destruct Hg as [-> Hne].
      destruct (filter _ l) as [|a v] eqn:F; [contradiction|].
      assert (Ha : In a (filter (fun a => String.eqb (gear_key a) k) l))
        by (rewrite F; now left).
      apply filter_In in Ha. destruct Ha as [Ha Ka].
      exists a. split; [exact Ha|]. apply String.eqb_eq, Ka.
    + intros (a & Ha & Ka).
      exists (k, filter (fun a => String.eqb (gear_key a) k) l).
      split; [reflexivity|]. apply Groups. split; [reflexivity|].
      intros C.
      assert (Hin : In a (filter (fun a => String.eqb (gear_key a) k) l)).
      { apply filter_In. split; [exact Ha|]. apply String.eqb_eq, Ka. }
      rewrite C in Hin. destruct Hin.
  - rewrite group_by_gear_fold.
    exact (concat_fold l []).
  - reflexivity.
Qed.

(** ** Races *)

Section Races.

Local Open Scope string_scope.

Lemma prefix_iff (keyword s : string) :
  prefix keyword s = true <-> exists post, s = keyword ++ post.
Proof.
  revert s. induction keyword as [|c keyword IH]; intros s; simpl.
  - split; [intros _; exists s; reflexivity|].
    intros _. destruct s; reflexivity.
  - destruct s as [|d s]; simpl.
    + split; [discriminate|]. intros [post E]. discriminate.
    + destruct (Ascii.ascii_dec c d) as [->|N].
      * rewrite IH. split; intros [post E]; exists post; congruence.
      * split; [discriminate|]. intros [post E]. congruence.
Qed.

Lemma contains_cons (keyword : string) (c : ascii) (s : string) :
  contains keyword (String c s)
  = if prefix keyword (String c s) then true else contains keyword s.
Proof. reflexivity. Qed.

Lemma contains_iff (keyword s : string) :
  contains keyword s = true
  <-> exists pre post, s = pre ++ keyword ++ post.
Proof.
  split.
  - induction s as [|c s IH].
    + destruct keyword; [intros _; exists "", ""; reflexivity|discriminate].
    + rewrite contains_cons.
      destruct (prefix keyword (String c s)) eqn:P.
      * intros _. apply prefix_iff in P. destruct P as [post E].
        exists "", post. exact E.
      * intros C. destruct (IH C) as (pre & post & E).
        exists (String c pre), post. simpl. congruence.
  - intros (pre & post & E). revert s E.
    induction pre as [|c pre IH]; intros s E; simpl in E.
    + assert (P : prefix keyword s = true)
        by (apply prefix_iff; exists post; exact E).
      destruct s; [|rewrite contains_cons]; unfold contains;
        rewrite P; reflexivity.
    + subst s. rewrite contains_cons.
      destruct (prefix keyword _); [reflexivity|].
      apply IH. reflexivity.
Qed.

End Races.

(** C7. An activity is a race exactly when its workout type is 1 or its
    lower-cased name holds one of the six keywords as a contiguous block,
    whatever surrounds it.  So "Boston Marathon" is a race, a workout type
    of 1 makes a race under any name, and "Evening Jog" without a workout
    type is none. *)
Theorem is_race_iff (R : Type) (L : StrLower) (a : activity R) :
  (is_race a = true
   <-> workout_type a = Some 1%Z
       \/ exists keyword,
            In keyword
               ["race"; "parkrun"; "marathon"; "half marathon";
                "10k race"; "5k race"]%string
            /\ exists pre post,
                 str_lower (get (name a) ""%string)
                 = (pre ++ keyword ++ post)%string)
  /\ @is_race R ascii_lower (Examples.named None "Boston Marathon") = true
  /\ (forall nm, is_race (@Examples.named R (Some 1%Z) nm) = true)
  /\ @is_race R ascii_lower (Examples.named None "Evening Jog") = false.
Proof.
  split; [|split; [reflexivity|split; [reflexivity|reflexivity]]].
  assert (K : existsb (fun keyword =>
                contains keyword (str_lower (get (name a) ""%string)))
                race_keywords = true
              <-> exists keyword,
                    In keyword race_keywords
                    /\ exists pre post,
                         str_lower (get (name a) ""%string)
                         = (pre ++ keyword ++ post)%string).
  { rewrite existsb_exists. split; intros (kw & Hk & C); exists kw;
      (split; [exact Hk|]); apply contains_iff; exact C. }
  unfold is_race. unfold race_keywords in K |- *.
  destruct (workout_type a) as [[|[p|p|]|p]|]; try rewrite K;
    try (split; [intros C; right; exact C
                |intros [C|C]; [discriminate|exact C]]).
  split; [intros _; left; reflexivity|reflexivity].
Qed.

(** ** Formatting a pace *)

Section Formatting.

Local Open Scope Q_scope.

(** [int] agrees with the floor on what is not negative, and mirrors it
    on what is not positive. *)
Lemma Qtrunc_nonneg (q : Q) : 0 <= q -> Qtrunc q = Qfloor q.
Proof.
  destruct q as [n d]. unfold Qle, Qtrunc, Qfloor. simpl. intros P.
  apply Z.quot_div_nonneg; lia.
Qed.

Lemma Qtrunc_opp (q : Q) : Qtrunc (- q) = (- Qtrunc q)%Z.
Proof.
  destruct q as [n d]. unfold Qtrunc. simpl. apply Z.quot_opp_l. discriminate.
Qed.

Lemma Qtrunc_nonpos (q : Q) : q <= 0 -> Qtrunc q = (- Qfloor (- q))%Z.
Proof.
  intros P. rewrite <- Qtrunc_nonneg.
  - rewrite Qtrunc_opp. lia.
  - apply (Qopp_le_compat q 0). exact P.
Qed.

Lemma Qtrunc_comp (x y : Q) : x == y -> Qtrunc x = Qtrunc y.
Proof.
  intros E. destruct (Qlt_le_dec x 0) as [P|P].
  - rewrite !Qtrunc_nonpos.
    + f_equal. apply Qfloor_comp. rewrite E. reflexivity.
    + rewrite <- E. apply Qlt_le_weak, P.
    + apply Qlt_le_weak, P.
  - rewrite !Qtrunc_nonneg.
    + apply Qfloor_comp, E.
    + rewrite <- E. exact P.
    + exact P.
Qed.






End Formatting.







(** * Further properties of the estimators *)

Section Estimators.

Local Open Scope Q_scope.










End Estimators.

Section EstimatorFacts.

Local Open Scope Q_scope.









Lemma filter_Permutation {A : Type} (f : A -> bool) (l l' : list A) :
  Permutation l l' -> Permutation (filter f l) (filter f l').
Proof.
  induction 1 as [|x l l' P IH|x y l|l l' l'' P1 IH1 P2 IH2]; simpl.
  - constructor.
  - destruct (f x); [constructor|]; exact IH.
  - destruct (f x), (f y); try reflexivity. constructor.
  - transitivity (filter f l'); assumption.
Qed.








End EstimatorFacts.









(** * Gear names *)

Section DictFacts.

Context {V : Type}.

Implicit Types (d : list (string * V)) (k key : string) (v : V).

Lemma dict_get_set d key v k :
  dict_get (dict_set d key v) k
  = if String.eqb key k then Some v else dict_get d k.
Proof.
  induction d as [|[k' x] rest IH]; simpl.
  - destruct (String.eqb key k); reflexivity.
  - destruct (String.eqb k' key) eqn:E1; simpl.
    + apply String.eqb_eq in E1. subst k'.
      destruct (String.eqb key k); reflexivity.
    + destruct (String.eqb k' k) eqn:E2; [|exact IH].
      apply String.eqb_eq in E2. subst k'.
      rewrite String.eqb_sym, E1. reflexivity.
Qed.

Lemma dict_set_keys d key v :
  map fst (dict_set d key v)
  = if existsb (String.eqb key) (map fst d) then map fst d
    else (map fst d ++ [key])%list.
Proof.
  induction d as [|[k' x] rest IH]; simpl; [reflexivity|].
  rewrite (String.eqb_sym key k').
  destruct (String.eqb k' key); simpl; [reflexivity|].
  rewrite IH. destruct (existsb _ _); reflexivity.
Qed.

Lemma existsb_eqb_In key (keys : list string) :
  existsb (String.eqb key) keys = true <-> In key keys.
Proof.
  rewrite existsb_exists. split.
  - intros (k & Hk & E). apply String.eqb_eq in E. subst. exact Hk.
  - intros Hk. exists key. split; [exact Hk|apply String.eqb_refl].
Qed.

Lemma dict_set_In d key v k :
  In k (map fst (dict_set d key v)) <-> k = key \/ In k (map fst d).
Proof.
  rewrite dict_set_keys.
  destruct (existsb _ _) eqn:E.
  - apply existsb_eqb_In in E. split; [tauto|].
    intros [->|I]; assumption.
  - rewrite in_app_iff. simpl. intuition congruence.
Qed.

Lemma dict_set_NoDup d key v :
  NoDup (map fst d) -> NoDup (map fst (dict_set d key v)).
Proof.
  intros N. rewrite dict_set_keys.
  destruct (existsb _ _) eqn:E; [exact N|].
  apply NoDup_app; [exact N|constructor; [intros []|constructor]|].
  intros k Hk [<-|[]].
  apply existsb_eqb_In in Hk. congruence.
Qed.

Lemma dict_get_In d k :
  In k (map fst d) <-> exists v, dict_get d k = Some v.
Proof.
  induction d as [|[k' x] rest IH]; simpl.
  - split; [intros []|intros [v E]; discriminate].
  - destruct (String.eqb k' k) eqn:E.
    + apply String.eqb_eq in E. split; [intros _; eexists; reflexivity|].
      intros _. now left.
    + rewrite <- IH. split; [|tauto].
      intros [C|C]; [|exact C]. subst.
      rewrite String.eqb_refl in E. discriminate.
Qed.

End DictFacts.

Section GearNameFacts.

Context {W : Type}.
Variable client_get_gear : string -> W -> (string + gear) * W.

Local Open Scope string_scope.

Local Abbreviation loop := (get_gear_names_loop client_get_gear).

(** One turn of the loop sets the entry of its id and nothing else. *)
Lemma loop_cons (gear_id : string) (rest : list string)
  (names : list (string * string)) (printed : list string) (w : W) :
  exists n printed1 w1,
    loop (gear_id :: rest) names printed w
    = loop rest (dict_set names gear_id n) printed1 w1
    /\ w1 = requests client_get_gear [gear_id] w
    /\ ((gear_id = "no_gear" /\ n = "No Shoe Recorded" /\ printed1 = printed)
        \/ (gear_id <> "no_gear"
            /\ ((n = unknown_shoe gear_id
                 /\ (List.length printed1 <= S (List.length printed))%nat)
                \/ (printed1 = printed
                    /\ exists g w0 w2,
                         client_get_gear gear_id w0 = (inr g, w2)
                         /\ gear_name g = Some n)))).
Proof.
  simpl. destruct (String.eqb gear_id "no_gear") eqn:E.
  - apply String.eqb_eq in E. subst.
    exists "No Shoe Recorded", printed, w. repeat split. left. auto.
  - assert (N : gear_id <> "no_gear")
      by (intros C; subst; discriminate).
    destruct (client_get_gear gear_id w) as [[e|g] w1] eqn:C; simpl.
    + exists (unknown_shoe gear_id). eexists. exists w1.
      split; [reflexivity|]. split; [reflexivity|].
      right. split; [exact N|]. left. split; [reflexivity|].
      rewrite length_app. simpl. lia.
    + exists (get (gear_name g) (unknown_shoe gear_id)), printed, w1.
      split; [reflexivity|]. split; [reflexivity|].
      right. split; [exact N|].
      destruct (gear_name g) as [n|] eqn:G; simpl.
      * right. split; [reflexivity|]. exists g, w, w1. auto.
      * left. split; [reflexivity|lia].
Qed.

Lemma requests_cons (gear_id : string) (rest : list string) (w : W) :
  requests client_get_gear (gear_id :: rest) w
  = requests client_get_gear rest (requests client_get_gear [gear_id] w).
Proof. simpl. destruct (String.eqb gear_id "no_gear"); reflexivity. Qed.

Lemma loop_keys (ids : list string) :
  forall names printed w,
    let names' := fst (fst (loop ids names printed w)) in
    (NoDup (map fst names) -> NoDup (map fst names'))
    /\ (forall k, In k (map fst names') <-> In k (map fst names) \/ In k ids)
    /\ (NoDup (map fst names ++ ids) ->
        map fst names' = (map fst names ++ ids)%list)
    /\ snd (loop ids names printed w) = requests client_get_gear ids w.
Proof.
  induction ids as [|id rest IH]; intros names printed w.
  - simpl. repeat split; try tauto. intros _. now rewrite app_nil_r.
  - destruct (loop_cons id rest names printed w)
      as (n & printed1 & w1 & -> & Ew & _).
    destruct (IH (dict_set names id n) printed1 w1) as (N1 & K1 & O1 & R1).
    cbv zeta. split; [|split; [|split]].
    + intros N. apply N1, dict_set_NoDup, N.
    + intros k. rewrite K1, dict_set_In. simpl. intuition congruence.
    + intros N. rewrite O1.
      * rewrite dict_set_keys.
        destruct (existsb _ _) eqn:E.
        -- apply existsb_eqb_In in E. exfalso.
           apply NoDup_remove_2 in N. apply N.
           apply in_or_app. now left.
        -- rewrite <- app_assoc. reflexivity.
      * rewrite dict_set_keys.
        destruct (existsb _ _) eqn:E.
        -- apply existsb_eqb_In in E. exfalso.
           apply NoDup_remove_2 in N. apply N.
           apply in_or_app. now left.
        -- rewrite <- app_assoc. exact N.
    + rewrite R1, Ew. symmetry. apply requests_cons.
Qed.

Lemma loop_values (ids : list string) :
  forall names printed w,
    (forall k n, dict_get names k = Some n -> named_by client_get_gear k n) ->
    forall k n,
      dict_get (fst (fst (loop ids names printed w))) k = Some n ->
      named_by client_get_gear k n.
Proof.
  induction ids as [|id rest IH]; intros names printed w Inv; [exact Inv|].
  destruct (loop_cons id rest names printed w)
    as (n0 & printed1 & w1 & -> & _ & Origin).
  apply IH. intros k n. rewrite dict_get_set.
  destruct (String.eqb id k) eqn:E; [|apply Inv].
  apply String.eqb_eq in E. subst k. intros G. injection G as <-.
  unfold named_by.
  destruct Origin as [(-> & -> & _)|(N & [[-> _]|[_ Ex]])]; auto.
Qed.

End GearNameFacts.

(** X5. Every gear id handed to [get_gear_names] gets a name, whatever
    the service answers, and nothing else does.  The sentinel "no_gear"
    is named "No Shoe Recorded" and is never requested; any other id is
    named after a gear the service answered for it, or "Unknown Shoe (id)".
    The keys come in the order of the ids when these are distinct. *)
Theorem gear_names_cover_every_id (W : Type)
  (client_get_gear : string -> W -> (string + gear) * W)
  (gear_ids : list string) (w : W) :
  let names := fst (fst (get_gear_names client_get_gear gear_ids w)) in
  NoDup (map fst names)
  /\ (forall k, In k gear_ids <-> exists n, dict_get names k = Some n)
  /\ (forall k n, dict_get names k = Some n -> named_by client_get_gear k n)
  /\ (NoDup gear_ids -> map fst names = gear_ids)
  /\ snd (get_gear_names client_get_gear gear_ids w)
     = requests client_get_gear gear_ids w.
Proof.
  cbv zeta. unfold get_gear_names.
  destruct (loop_keys client_get_gear gear_ids [] [] w) as (N & K & O & Rq).
  split; [apply N; constructor|]. split; [|split; [|split]].
  - intros k. rewrite <- dict_get_In, K. simpl. tauto.
  - apply loop_values. intros k n C. discriminate.
  - intros D. apply O. exact D.
  - exact Rq.
Qed.

Section ServiceDown.

Context {W : Type}.
Variable client_get_gear : string -> W -> (string + gear) * W.
Hypothesis down : forall id w0, exists e w1, client_get_gear id w0 = (inl e, w1).

Local Open Scope string_scope.

Lemma loop_sentinel (rest : list string) (names : list (string * string))
  (printed : list string) (w : W) :
  get_gear_names_loop client_get_gear ("no_gear" :: rest) names printed w
  = get_gear_names_loop client_get_gear rest
      (dict_set names "no_gear" "No Shoe Recorded") printed w.
Proof. reflexivity. Qed.

Lemma loop_failure (id : string) (rest : list string)
  (names : list (string * string)) (printed : list string) (w w1 : W)
  (e : string) :
  String.eqb id "no_gear" = false ->
  client_get_gear id w = (inl e, w1) ->
  get_gear_names_loop client_get_gear (id :: rest) names printed w
  = get_gear_names_loop client_get_gear rest
      (dict_set names id (unknown_shoe id))
      (printed ++ [("Warning: Could not fetch gear " ++ id
                    ++ ": " ++ e)%string])%list w1.
Proof.
  intros E C. cbn [get_gear_names_loop]. rewrite E, C. reflexivity.
Qed.

Lemma loop_when_service_fails (ids : list string) :
  forall names printed w,
    let out := get_gear_names_loop client_get_gear ids names printed w in
    (forall k,
       dict_get (fst (fst out)) k
       = if existsb (String.eqb k) ids
         then Some (if String.eqb k "no_gear" then "No Shoe Recorded"
                    else unknown_shoe k)
         else dict_get names k)
    /\ List.length (snd (fst out))
       = (List.length printed
          + List.length
              (filter (fun k => negb (String.eqb k "no_gear")) ids))%nat.
Proof.
  induction ids as [|id rest IH]; intros names printed w; cbv zeta.
  - simpl. split; [reflexivity|lia].
  - cbn [existsb filter]. destruct (String.eqb id "no_gear") eqn:E.
    + apply String.eqb_eq in E. subst id. rewrite loop_sentinel.
      destruct (IH (dict_set names "no_gear" "No Shoe Recorded") printed w)
        as [G P].
      split; [|exact P].
      intros k. rewrite G, dict_get_set, (String.eqb_sym k "no_gear").
      destruct (existsb _ rest) eqn:Ex;
        [rewrite orb_true_r|rewrite orb_false_r].
      * reflexivity.
      * destruct (String.eqb "no_gear" k) eqn:Ek; [|reflexivity].
        apply String.eqb_eq in Ek. subst k. reflexivity.
    + destruct (down id w) as (e & w1 & C).
      rewrite (loop_failure rest names printed E C).
      destruct (IH (dict_set names id (unknown_shoe id))
                   (printed ++ [("Warning: Could not fetch gear " ++ id
                                 ++ ": " ++ e)%string])%list w1) as [G P].
      split.
      * intros k. rewrite G, dict_get_set, (String.eqb_sym k id).
        destruct (existsb _ rest) eqn:Ex;
          [rewrite orb_true_r|rewrite orb_false_r].
        -- reflexivity.
        -- destruct (String.eqb id k) eqn:Ek; [|reflexivity].
           apply String.eqb_eq in Ek. subst k. rewrite E. reflexivity.
      * rewrite P, length_app. cbn [negb List.length]. lia.
Qed.

End ServiceDown.

(** X6. When the service fails on every request, [get_gear_names] still
    names every id: "No Shoe Recorded" for the sentinel, "Unknown Shoe (id)"
    for any other, and it prints one warning for each id it requested. *)
Theorem gear_names_when_service_is_down (W : Type)
  (client_get_gear : string -> W -> (string + gear) * W)
  (gear_ids : list string) (w : W) :
  (forall id w0, exists e w1, client_get_gear id w0 = (inl e, w1)) ->
  let out := get_gear_names client_get_gear gear_ids w in
  (forall k, In k gear_ids ->
     dict_get (fst (fst out)) k
     = Some (if String.eqb k "no_gear" then "No Shoe Recorded"%string
             else unknown_shoe k))
  /\ List.length (snd (fst out))
     = List.length
         (filter (fun k => negb (String.eqb k "no_gear")) gear_ids).
Proof.
  intros Down. cbv zeta. unfold get_gear_names.
  destruct (loop_when_service_fails client_get_gear Down gear_ids [] [] w)
    as [G P].
  split; [|exact P].
  intros k Hk. rewrite G.
  apply existsb_eqb_In in Hk. rewrite Hk. reflexivity.
Qed.

Lemma gear_names_when_service_is_down_witness :
  dict_get
    (fst (fst (get_gear_names
                 (fun (_ : string) (w : unit) => (inl "timeout"%string, w))
                 ["g1"; "no_gear"]%string tt))) "g1"
  = Some "Unknown Shoe (g1)"%string.
Proof.
  apply (@gear_names_when_service_is_down unit
           (fun (_ : string) (w : unit) => (inl "timeout"%string, w))
           ["g1"; "no_gear"]%string tt).
  - intros id w0. exists "timeout"%string, w0. reflexivity.
  - simpl. left. reflexivity.
Defined.

(** * The analysis of main.py *)

Section MainFacts.

Context {R : Type} `{PyNumber R} {L : StrLower}.

Local Open Scope string_scope.

Lemma map_result_Forall2 {A B : Type} (f : A -> result B) (l : list A) :
  forall ys, map_result f l = Ok ys ->
             Forall2 (fun x y => f x = Ok y) l ys.
Proof.
  induction l as [|a l IH]; simpl; intros ys E.
  - injection E as <-. constructor.
  - destruct (f a) as [y|e] eqn:Fa; [|discriminate]. simpl in E.
    destruct (map_result f l) as [zs|e]; [|discriminate].
    injection E as <-. constructor; [exact Fa|apply IH; reflexivity].
Qed.

Lemma shoe_statistics_counts (activities : list (activity R))
  (s : shoe_statistics R) :
  calculate_shoe_statistics activities = Ok s ->
  activity_count s = List.length activities
  /\ non_race_count s
     = List.length (filter_non_race_activities activities).
Proof.
  unfold calculate_shoe_statistics.
  destruct (py_div _ _); [|discriminate]. simpl.
  destruct (calculate_average_pace activities); [|discriminate]. simpl.
  destruct (calculate_estimated_gap activities); [|discriminate]. simpl.
  destruct (calculate_average_pace _); [|discriminate]. simpl.
  destruct (calculate_estimated_gap _); [|discriminate]. simpl.
  intros E. injection E as <-. split; reflexivity.
Qed.

Lemma shoe_row_of_inv (gear_names : list (string * string))
  (gear_id : string) (activities : list (activity R)) (r : shoe_row R) :
  shoe_row_of gear_names gear_id activities = Ok r ->
  calculate_shoe_statistics activities = Ok (stats r)
  /\ row_gear_id r = gear_id
  /\ row_gear_name r
     = get (dict_get gear_names gear_id) ("Unknown (" ++ gear_id ++ ")").
Proof.
  unfold shoe_row_of.
  destruct (calculate_shoe_statistics activities) as [s|e]; [|discriminate].
  simpl.
  destruct (format_pace (average_pace_min_per_km s)); [|discriminate]. simpl.
  destruct (format_pace (estimated_gap_min_per_km s)); [|discriminate]. simpl.
  destruct (format_pace (average_pace_non_race_min_per_km s));
    [|discriminate]. simpl.
  destruct (format_pace (estimated_gap_non_race_min_per_km s));
    [|discriminate]. simpl.
  intros E. injection E as <-. repeat split; reflexivity.
Qed.

(** Groups are never empty, and together they hold what was grouped. *)
Lemma group_not_empty (l : list (activity R)) (k : string)
  (g : list (activity R)) :
  In (k, g) (group_by_gear l) -> g <> [].
Proof.
  destruct (group_by_gear_groups_of l) as [N Lk].
  intros I. apply (lookup_In _ k g N) in I. rewrite Lk in I.
  destruct (filter _ l); [discriminate|].
  injection I as <-. discriminate.
Qed.

Lemma groups_hold_all (l : list (activity R)) :
  Permutation (List.concat (map snd (group_by_gear l))) l.
Proof. rewrite group_by_gear_fold. exact (concat_fold l []). Qed.

Lemma length_concat_sum {A : Type} (ls : list (list A)) :
  List.length (List.concat ls) = list_sum (map (@List.length A) ls).
Proof.
  induction ls as [|x ls IH]; simpl; [reflexivity|].
  rewrite length_app, IH. reflexivity.
Qed.

Lemma filter_concat {A : Type} (f : A -> bool) (ls : list (list A)) :
  filter f (List.concat ls) = List.concat (map (filter f) ls).
Proof.
  induction ls as [|x ls IH]; simpl; [reflexivity|].
  rewrite filter_app, IH. reflexivity.
Qed.

Lemma main_results_inv {W : Type}
  (client_get_gear : string -> W -> (string + gear) * W)
  (all_activities : list (activity R)) (w : W)
  (rows : list (shoe_row R)) (printed : list string) (w' : W) :
  main_results client_get_gear all_activities w
  = Ok (Some (rows, printed, w')) ->
  let grouped := group_by_gear (filter_running_activities all_activities) in
  let out := get_gear_names client_get_gear (map fst grouped) w in
  filter_running_activities all_activities <> []
  /\ printed = snd (fst out) /\ w' = snd out
  /\ Forall2 (fun '(gear_id, activities) r =>
                shoe_row_of (fst (fst out)) gear_id activities = Ok r)
             grouped rows.
Proof.
  unfold main_results. cbv zeta.
  destruct (filter_running_activities all_activities) as [|a running] eqn:F;
    [discriminate|].
  destruct (get_gear_names _ _ _) as [[names pr] w1]. simpl fst. simpl snd.
  destruct (map_result _ _) as [rs|e] eqn:M; [|discriminate].
  simpl. intros E. injection E as <- <- <-.
  split; [discriminate|]. split; [reflexivity|]. split; [reflexivity|].
  apply map_result_Forall2 in M.
  induction M as [|[id acts] r grouped rows E M IH]; constructor; assumption.
Qed.

End MainFacts.

Section MainRows.

Context {R : Type} `{PyNumber R} {L : StrLower}.

Lemma rows_follow_groups (names : list (string * string))
  (grouped : list (string * list (activity R))) (rows : list (shoe_row R)) :
  Forall2 (fun '(gear_id, activities) r =>
             shoe_row_of names gear_id activities = Ok r) grouped rows ->
  map row_gear_id rows = map fst grouped
  /\ map (fun r => activity_count (stats r)) rows
     = map (fun g => List.length (snd g)) grouped
  /\ map (fun r => non_race_count (stats r)) rows
     = map (fun g => List.length (filter_non_race_activities (snd g)))
           grouped
  /\ Forall (fun r =>
               row_gear_name r
               = get (dict_get names (row_gear_id r))
                     ("Unknown (" ++ row_gear_id r ++ ")")%string) rows.
Proof.
  induction 1 as [|[id acts] r grouped rows E F (I1 & I2 & I3 & I4)]; simpl.
  - repeat split; constructor.
  - apply shoe_row_of_inv in E. destruct E as (S & Ei & En).
    apply shoe_statistics_counts in S. destruct S as [C1 C2].
    rewrite I1, I2, I3, Ei, C1, C2.
    repeat split. constructor; [|exact I4]. rewrite En, Ei. reflexivity.
Qed.

Lemma rows_count_bounds (names : list (string * string))
  (grouped : list (string * list (activity R))) (rows : list (shoe_row R)) :
  Forall2 (fun '(gear_id, activities) r =>
             shoe_row_of names gear_id activities = Ok r) grouped rows ->
  (forall k g, In (k, g) grouped -> g <> []) ->
  Forall (fun r => (1 <= activity_count (stats r))%nat
                   /\ (non_race_count (stats r)
                       <= activity_count (stats r))%nat) rows.
Proof.
  induction 1 as [|[id acts] r grouped rows E F IH]; intros G; constructor.
  - apply shoe_row_of_inv in E. destruct E as (S & _ & _).
    apply shoe_statistics_counts in S. destruct S as [-> ->].
    split.
    + specialize (G id acts (or_introl eq_refl)).
      destruct acts; [contradiction|simpl; lia].
    + unfold filter_non_race_activities. apply filter_length_le.
  - apply IH. intros k g I. apply (G k g). now right.
Qed.

End MainRows.

(** X7. The rows [main] hands to [display_results] partition the running
    activities: there is one row for each gear key, no key twice and at
    least one row; every row counts at least one activity and no more
    non-race activities than activities; the activity counts add up to the
    number of running activities and the non-race counts to the number of
    running activities that are no races. *)
Theorem main_rows_partition (R : Type) (N : PyNumber R) (L : StrLower)
  (W : Type) (client_get_gear : string -> W -> (string + gear) * W)
  (all_activities : list (activity R)) (w : W)
  (rows : list (shoe_row R)) (printed : list string) (w' : W) :
  main_results client_get_gear all_activities w
  = Ok (Some (rows, printed, w')) ->
  let running := filter_running_activities all_activities in
  rows <> []
  /\ map row_gear_id rows = map fst (group_by_gear running)
  /\ NoDup (map row_gear_id rows)
  /\ Forall (fun r => (1 <= activity_count (stats r))%nat
                      /\ (non_race_count (stats r)
                          <= activity_count (stats r))%nat) rows
  /\ list_sum (map (fun r => activity_count (stats r)) rows)
     = List.length running
  /\ list_sum (map (fun r => non_race_count (stats r)) rows)
     = List.length (filter_non_race_activities running).
Proof.
  intros E. apply main_results_inv in E. cbv zeta in E.
  destruct E as (NE & _ & _ & F). cbv zeta.
  set (running := filter_running_activities all_activities) in *.
  pose proof (rows_follow_groups _ F) as (I1 & I2 & I3 & _).
  pose proof (groups_hold_all running) as P.
  split; [|split; [exact I1|split; [|split; [|split]]]].
  - intros C. subst rows. inversion F as [G|]; subst.
    rewrite <- G in P. simpl in P.
    apply Permutation_nil in P. contradiction.
  - rewrite I1. apply (group_by_gear_groups_of running).
  - apply (rows_count_bounds _ F). intros k g. apply group_not_empty.
  - rewrite I2, <- (Permutation_length P), length_concat_sum, map_map.
    reflexivity.
  - rewrite I3. unfold filter_non_race_activities.
    rewrite <- (Permutation_length
                  (filter_Permutation (fun a => negb (is_race a)) P)).
    rewrite filter_concat, length_concat_sum, !map_map. reflexivity.
Qed.

Lemma main_rows_partition_witness :
  exists rows printed w',
    @main_results Q _ ascii_lower unit no_service sample_activities tt
    = Ok (Some (rows, printed, w'))
    /\ rows <> []
    /\ map row_gear_id rows
       = map fst (group_by_gear (filter_running_activities sample_activities))
    /\ NoDup (map row_gear_id rows)
    /\ Forall (fun r => (1 <= activity_count (stats r))%nat
                        /\ (non_race_count (stats r)
                            <= activity_count (stats r))%nat) rows
    /\ list_sum (map (fun r => activity_count (stats r)) rows)
       = List.length (filter_running_activities sample_activities)
    /\ list_sum (map (fun r => non_race_count (stats r)) rows)
       = List.length
           (@filter_non_race_activities Q ascii_lower
              (filter_running_activities sample_activities)).
Proof.
  eexists. eexists. eexists.
  split; [vm_compute; reflexivity|].
  eapply (@main_rows_partition Q _ ascii_lower unit no_service
            sample_activities tt).
  vm_compute. reflexivity.
Defined.

Lemma gear_names_cover_keys {W : Type}
  (client_get_gear : string -> W -> (string + gear) * W)
  (gear_ids : list string) (w : W) :
  let names := fst (fst (get_gear_names client_get_gear gear_ids w)) in
  (forall k, In k gear_ids -> exists n, dict_get names k = Some n)
  /\ (forall k n, dict_get names k = Some n -> named_by client_get_gear k n).
Proof.
  cbv zeta. unfold get_gear_names.
  destruct (loop_keys client_get_gear gear_ids [] [] w) as (_ & K & _).
  split.
  - intros k Hk. apply dict_get_In, K. now right.
  - apply loop_values. intros k n C. discriminate.
Qed.

(** X8. The name [main] shows for a shoe is always the one
    [get_gear_names] gave to its key: the fallback "Unknown (id)" of the
    lookup is never used.  So the group of activities without a shoe is
    called "No Shoe Recorded" and any other group bears the name of a gear
    the service answered for its id, or "Unknown Shoe (id)". *)
Theorem main_rows_are_named (R : Type) (N : PyNumber R) (L : StrLower)
  (W : Type) (client_get_gear : string -> W -> (string + gear) * W)
  (all_activities : list (activity R)) (w : W)
  (rows : list (shoe_row R)) (printed : list string) (w' : W) :
  main_results client_get_gear all_activities w
  = Ok (Some (rows, printed, w')) ->
  let grouped := group_by_gear (filter_running_activities all_activities) in
  let names :=
    fst (fst (get_gear_names client_get_gear (map fst grouped) w)) in
  Forall (fun r =>
            dict_get names (row_gear_id r) = Some (row_gear_name r)
            /\ named_by client_get_gear (row_gear_id r) (row_gear_name r))
         rows.
Proof.
  intros E. apply main_results_inv in E. cbv zeta in E.
  destruct E as (_ & _ & _ & F). cbv zeta.
  set (grouped := group_by_gear (filter_running_activities all_activities))
    in *.
  pose proof (rows_follow_groups _ F) as (I1 & _ & _ & I4).
  destruct (gear_names_cover_keys client_get_gear (map fst grouped) w)
    as (K & V).
  apply Forall_forall. intros r Hr.
  rewrite Forall_forall in I4. specialize (I4 r Hr).
  assert (Hk : In (row_gear_id r) (map fst grouped)).
  { rewrite <- I1. apply in_map, Hr. }
  apply K in Hk. destruct Hk as [n Hn].
  rewrite Hn in I4. simpl in I4. rewrite I4.
  split; [exact Hn|]. apply (V _ _ Hn).
Qed.

Lemma main_rows_are_named_witness :
  exists rows printed w',
    @main_results Q _ ascii_lower unit no_service sample_activities tt
    = Ok (Some (rows, printed, w'))
    /\ Forall (fun r =>
                 dict_get
                   (fst (fst (get_gear_names no_service
                                (map fst (group_by_gear
                                            (filter_running_activities
                                               sample_activities))) tt)))
                   (row_gear_id r) = Some (row_gear_name r)
                 /\ named_by no_service (row_gear_id r) (row_gear_name r))
              rows.
Proof.
  eexists. eexists. eexists.
  split; [vm_compute; reflexivity|].
  eapply (@main_rows_are_named Q _ ascii_lower unit no_service
            sample_activities tt).
  vm_compute. reflexivity.
Defined.

Section MainOverQ.

Context {L : StrLower}.

Local Open Scope Q_scope.







Lemma insert_by_distance_Permutation (r : shoe_row Q)
  (l : list (shoe_row Q)) :
  Permutation (insert_by_distance r l) (r :: l).
Proof.
  induction l as [|x l IH]; [reflexivity|]. cbn [insert_by_distance].
  destruct (num_ltb (total_distance_km (stats r))
                    (total_distance_km (stats x))); [|reflexivity].
  rewrite IH. apply perm_swap.
Qed.

Lemma insert_by_distance_sorted (r : shoe_row Q) (l : list (shoe_row Q)) :
  StronglySorted (fun r1 r2 => total_distance_km (stats r2)
                               <= total_distance_km (stats r1)) l ->
  StronglySorted (fun r1 r2 => total_distance_km (stats r2)
                               <= total_distance_km (stats r1))
                 (insert_by_distance r l).
Proof.
  induction 1 as [|x l S IH F]; simpl.
  - constructor; constructor.
  - change (num_ltb (total_distance_km (stats r))
                    (total_distance_km (stats x)))
      with (negb (Qle_bool (total_distance_km (stats x))
                           (total_distance_km (stats r)))).
    destruct (Qle_bool _ _) eqn:E; simpl.
    + apply Qle_bool_iff in E. constructor.
      * constructor; assumption.
      * constructor; [exact E|].
        rewrite Forall_forall in F |- *. intros y Hy.
        apply Qle_trans with (total_distance_km (stats x));
          [apply F, Hy|exact E].
    + assert (Lt : total_distance_km (stats r)
                   < total_distance_km (stats x)).
      { apply Qnot_le_lt. intros C. apply Qle_bool_iff in C. congruence. }
      constructor; [exact IH|].
      apply Forall_forall. intros y Hy.
      apply (Permutation_in _ (insert_by_distance_Permutation r l)) in Hy.
      destruct Hy as [<-|Hy]; [apply Qlt_le_weak, Lt|].
      rewrite Forall_forall in F. apply F, Hy.
Qed.

Lemma insert_by_distance_stable (q : Q) (r : shoe_row Q)
  (l : list (shoe_row Q)) :
  filter (fun x => Qeq_bool (total_distance_km (stats x)) q)
         (insert_by_distance r l)
  = filter (fun x => Qeq_bool (total_distance_km (stats x)) q) (r :: l).
Proof.
  induction l as [|x l IH]; [reflexivity|].
  cbn [insert_by_distance].
  change (num_ltb (total_distance_km (stats r))
                  (total_distance_km (stats x)))
    with (negb (Qle_bool (total_distance_km (stats x))
                         (total_distance_km (stats r)))).
  destruct (Qle_bool _ _) eqn:E; [reflexivity|].
  cbn [negb filter] in *. rewrite IH.
  destruct (Qeq_bool (total_distance_km (stats r)) q) eqn:Er;
    [|reflexivity].
  destruct (Qeq_bool (total_distance_km (stats x)) q) eqn:Ex;
    [|reflexivity].
  apply Qeq_bool_iff in Er, Ex. exfalso.
  assert (C : Qle_bool (total_distance_km (stats x))
                       (total_distance_km (stats r)) = true).
  { apply Qle_bool_iff. rewrite Er, Ex. apply Qle_refl. }
  congruence.
Qed.

End MainOverQ.





(** X11. [display_results] shows the shoes by decreasing total distance:
    its sort rearranges the rows without losing or repeating any, leaves
    every row's distance at most that of the rows before it, and keeps
    rows of equal distance in the order they had. *)
Theorem display_order (rows : list (shoe_row Q)) :
  Permutation (sort_by_distance rows) rows
  /\ StronglySorted (fun r1 r2 => (total_distance_km (stats r2)
                                   <= total_distance_km (stats r1))%Q)
                    (sort_by_distance rows)
  /\ (forall q : Q,
        filter (fun r => Qeq_bool (total_distance_km (stats r)) q)
               (sort_by_distance rows)
        = filter (fun r => Qeq_bool (total_distance_km (stats r)) q) rows).
Proof.
  induction rows as [|r rows (P & S & T)]; simpl.
  - repeat split; constructor.
  - split; [|split].
    + rewrite insert_by_distance_Permutation. constructor. exact P.
    + apply insert_by_distance_sorted, S.
    + intros q. rewrite insert_by_distance_stable. simpl. rewrite T.
      reflexivity.
Qed.

(** * The classifier *)

Section StringFacts.

Local Open Scope string_scope.

Lemma append_assoc (s1 s2 s3 : string) :
  (s1 ++ s2) ++ s3 = s1 ++ (s2 ++ s3).
Proof.
  induction s1 as [|c s1 IH]; simpl; [reflexivity|]. now rewrite IH.
Qed.

Lemma append_nil_r (s : string) : s ++ "" = s.
Proof. induction s as [|c s IH]; simpl; [reflexivity|]. now rewrite IH. Qed.

Lemma length_append (s1 s2 : string) :
  String.length (s1 ++ s2) = (String.length s1 + String.length s2)%nat.
Proof.
  induction s1 as [|c s1 IH]; simpl; [reflexivity|]. now rewrite IH.
Qed.

(** A name that holds a keyword holds every part of the keyword. *)
Lemma contains_trans (part keyword s : string) :
  contains part keyword = true -> contains keyword s = true ->
  contains part s = true.
Proof.
  rewrite !contains_iff.
  intros (p1 & q1 & ->) (p2 & q2 & ->).
  exists (p2 ++ p1), (q1 ++ q2).
  rewrite !append_assoc. reflexivity.
Qed.

End StringFacts.

(** X12. Three of the six race keywords decide alone: a name that holds
    "half marathon" holds "marathon", and one that holds "10k race" or
    "5k race" holds "race".  An activity is a race exactly when its workout
    type is 1 or its lower-cased name holds "race", "parkrun" or
    "marathon". *)
Theorem three_keywords_decide (R : Type) (L : StrLower) (a : activity R) :
  is_race a = true
  <-> workout_type a = Some 1%Z
      \/ contains "race" (str_lower (get (name a) ""%string)) = true
      \/ contains "parkrun" (str_lower (get (name a) ""%string)) = true
      \/ contains "marathon" (str_lower (get (name a) ""%string)) = true.
Proof.
  set (n := str_lower (get (name a) ""%string)).
  assert (H4 : contains "half marathon" n = true ->
               contains "marathon" n = true)
    by (apply contains_trans; reflexivity).
  assert (H5 : contains "10k race" n = true -> contains "race" n = true)
    by (apply contains_trans; reflexivity).
  assert (H6 : contains "5k race" n = true -> contains "race" n = true)
    by (apply contains_trans; reflexivity).
  assert (K : existsb (fun keyword => contains keyword n) race_keywords = true
              <-> contains "race" n = true
                  \/ contains "parkrun" n = true
                  \/ contains "marathon" n = true).
  { unfold race_keywords. cbn [existsb].
    destruct (contains "race" n), (contains "parkrun" n),
      (contains "marathon" n), (contains "half marathon" n),
      (contains "10k race" n), (contains "5k race" n);
      cbn [orb]; split; intros C; auto;
      try discriminate;
      try (specialize (H4 eq_refl); discriminate);
      try (specialize (H5 eq_refl); discriminate);
      try (specialize (H6 eq_refl); discriminate);
      destruct C as [C|[C|C]]; discriminate. }
  unfold is_race. fold n.
  destruct (workout_type a) as [[|[p|p|]|p]|]; try rewrite K;
    try (split; [intros C; right; exact C
                |intros [C|C]; [discriminate|exact C]]).
  split; [intros _; left; reflexivity|reflexivity].
Qed.

(** X13. [filter_running_activities] keeps exactly the activities whose
    "type" or "sport_type" is literally Run, TrailRun or VirtualRun, one of
    the two keys being enough and an activity with neither being dropped;
    it keeps them in input order, and filtering again changes nothing. *)
Theorem running_filter_keeps_runs (R : Type) (l l' : list (activity R)) :
  (forall a,
     In a (filter_running_activities l)
     <-> In a l
         /\ exists t, (type_ a = Some t \/ sport_type a = Some t)
                      /\ In t ["Run"; "TrailRun"; "VirtualRun"]%string)
  /\ filter_running_activities (l ++ l')
     = filter_running_activities l ++ filter_running_activities l'
  /\ filter_running_activities (filter_running_activities l)
     = filter_running_activities l.
Proof.
  assert (T : forall v : option string,
            in_types v running_types = true
            <-> exists t, v = Some t
                          /\ In t ["Run"; "TrailRun"; "VirtualRun"]%string).
  { intros [t|]; simpl.
    - rewrite !orb_true_iff, !String.eqb_eq. split.
      + intros C. exists t. split; [reflexivity|]. simpl.
        intuition (subst; auto; discriminate).
      + intros (t' & E & I). injection E as <-. simpl in I.
        intuition (subst; auto).
    - split; [discriminate|]. intros (t & E & _). discriminate. }
  split; [|split].
  - intros a. unfold filter_running_activities. rewrite filter_In.
    unfold is_running_activity. rewrite orb_true_iff, !T.
    split; intros [I C]; (split; [exact I|]).
    + destruct C as [(t & E & It)|(t & E & It)]; exists t; auto.
    + destruct C as (t & [E|E] & It); [left|right]; exists t; auto.
  - apply filter_app.
  - unfold filter_running_activities.
    induction l as [|a l IH]; simpl; [reflexivity|].
    destruct (is_running_activity a) eqn:E; simpl; [rewrite E|];
      rewrite IH; reflexivity.
Qed.

(** * The client *)

Section Pagination.

Context {A : Type}.

Local Open Scope string_scope.

Lemma paging_service_page (stored : list A) (after : Z) (page : Z) :
  (1 <= page)%Z ->
  get_activities (paging_service stored) (Some after) None page 200 tt
  = (inr (firstn 200 (skipn (200 * Z.to_nat (page - 1)) stored)), tt).
Proof.
  intros P.
  change (get_activities (paging_service stored) (Some after) None page 200 tt)
    with (@inr string _
            (firstn (Z.to_nat 200)
                    (skipn (Z.to_nat ((page - 1) * 200)) stored)), tt).
  replace (Z.to_nat ((page - 1) * 200)) with (200 * Z.to_nat (page - 1))%nat
    by lia.
  reflexivity.
Qed.

(** From any page on, the loop collects what the service has left. *)
Lemma fetch_pages_paging (stored : list A) (after : Z) :
  forall (fuel k : nat) (all_activities : list A) (printed : list string),
    (List.length stored - 200 * k < 200 * fuel)%nat ->
    exists printed',
      fetch_pages (paging_service stored) fuel after (Z.of_nat (S k))
                  all_activities printed tt
      = Some (inr (all_activities ++ skipn (200 * k) stored)%list,
              printed', tt)
      /\ List.length printed'
         = (List.length printed
            + S ((List.length stored - 200 * k) / 200))%nat.
Proof.
  induction fuel as [|fuel IH]; intros k all_activities printed F; [lia|].
  cbn [fetch_pages].
  rewrite paging_service_page by lia.
  replace (Z.to_nat (Z.of_nat (S k) - 1)) with k by lia.
  set (rest := skipn (200 * k) stored).
  assert (Lr : List.length rest = (List.length stored - 200 * k)%nat)
    by apply length_skipn.
  destruct (firstn 200 rest) as [|a page] eqn:Pg.
  - assert (E : rest = []).
    { destruct rest; [reflexivity|discriminate]. }
    rewrite E in *. cbn [List.length] in Lr. rewrite <- Lr.
    eexists. split; [rewrite app_nil_r; reflexivity|].
    rewrite length_app. cbn [List.length]. rewrite Nat.Div0.div_0_l. lia.
  - rewrite <- Pg.
    pose proof (length_firstn 200 rest) as Lf.
    destruct (Nat.ltb_spec (List.length (firstn 200 rest)) 200) as [Lt|Ge].
    + assert (E : firstn 200 rest = rest).
      { apply firstn_all2. lia. }
      rewrite E. eexists. split; [reflexivity|].
      rewrite length_app, <- Lr. cbn [List.length].
      rewrite Nat.div_small by lia. lia.
    + destruct (IH (S k) (all_activities ++ firstn 200 rest)%list
                  (printed ++ [("Fetching activities page "
                                ++ str_of_int (Z.of_nat (S k))
                                ++ "...")%string])%list)
        as (printed' & E & Lp); [lia|].
      replace (Z.of_nat (S k) + 1)%Z with (Z.of_nat (S (S k))) by lia.
      rewrite E. exists printed'. split.
      * rewrite <- app_assoc. repeat f_equal.
        replace (200 * S k)%nat with (200 + 200 * k)%nat by lia.
        rewrite <- skipn_skipn. fold rest.
        apply firstn_skipn.
      * rewrite Lp, length_app. cbn [List.length].
        replace (List.length stored - 200 * k)%nat
          with ((List.length stored - 200 * S k) + 1 * 200)%nat by lia.
        rewrite Nat.div_add by lia. lia.
Qed.

End Pagination.

(** X14. Against a service that pages a stored list as asked,
    [get_all_activities_since] returns the whole list, in order, with
    length / 200 + 1 requests, one line printed for each: the last request
    is the first that brings fewer than 200 activities, none when the
    length is a multiple of 200.  Any number of turns above length / 200
    lets the loop end. *)
Theorem pagination_collects_everything (A : Type) (stored : list A)
  (after : Z) (fuel : nat) :
  (List.length stored / 200 < fuel)%nat ->
  exists printed,
    get_all_activities_since (paging_service stored) fuel after tt
    = Some (inr stored, printed, tt)
    /\ List.length printed = S (List.length stored / 200).
Proof.
  intros F. unfold get_all_activities_since.
  destruct (fetch_pages_paging stored after fuel 0 [] []) as (pr & E & Lp).
  - pose proof (Nat.div_mod_eq (List.length stored) 200).
    pose proof (Nat.mod_upper_bound (List.length stored) 200). lia.
  - exists pr. split; [exact E|].
    rewrite Lp. simpl. rewrite Nat.sub_0_r. reflexivity.
Qed.

Lemma pagination_collects_everything_witness :
  exists printed,
    get_all_activities_since (paging_service (repeat tt 450)) 3 0%Z tt
    = Some (inr (repeat tt 450), printed, tt)
    /\ List.length printed = S (List.length (repeat tt 450) / 200).
Proof.
  apply (@pagination_collects_everything unit (repeat tt 450) 0%Z 3).
  vm_compute. lia.
Defined.

Section EndlessPages.

Context {W A : Type}.
Variable session_get_activities :
  list (string * Z) -> W -> (string + list A) * W.

(** X15. [get_all_activities_since] stops only on a request that fails, an
    empty page or a page of fewer than 200 activities: against a service
    that answers every request with 200 activities or more no number of
    turns lets the loop end. *)
Theorem pagination_needs_a_short_page :
  (forall params w, exists page w',
      session_get_activities params w = (inr page, w')
      /\ (200 <= List.length page)%nat) ->
  forall fuel after page all_activities printed w,
    fetch_pages session_get_activities fuel after page
                all_activities printed w = None.
Proof.
  intros Full. induction fuel as [|fuel IH]; intros; [reflexivity|].
  cbn [fetch_pages]. unfold get_activities.
  destruct (Full (dict_set [("page"%string, page); ("per_page"%string, 200%Z)]
                           "after" after) w) as (p & w' & -> & Lp).
  destruct p as [|a p]; [simpl in Lp; lia|].
  destruct (Nat.ltb_spec (List.length (a :: p)) 200) as [Lt|Ge]; [lia|].
  apply IH.
Qed.

End EndlessPages.

Lemma pagination_needs_a_short_page_witness :
  get_all_activities_since
    (fun (_ : list (string * Z)) (w : unit) =>
       (@inr string _ (repeat tt 200), w)) 5 0%Z tt
  = None.
Proof.
  apply (@pagination_needs_a_short_page unit unit
           (fun (_ : list (string * Z)) (w : unit) =>
              (@inr string _ (repeat tt 200), w))).
  intros params w. exists (repeat tt 200), w.
  split; [reflexivity|]. rewrite repeat_length. lia.
Defined.

(** * Splitting and the authorization code *)

Section SplitFacts.

Local Open Scope string_scope.

Lemma prefix_drop (sep s : string) :
  prefix sep s = true -> s = sep ++ drop (String.length sep) s.
Proof.
  revert s. induction sep as [|c sep IH]; intros s P; [reflexivity|].
  destruct s as [|d s]; [discriminate|]. simpl in P.
  destruct (Ascii.ascii_dec c d) as [->|]; [|discriminate].
  simpl. f_equal. apply IH, P.
Qed.

Lemma prefix_extend (sep s t : string) :
  prefix sep s = true -> prefix sep (s ++ t) = true.
Proof.
  intros P. apply prefix_iff in P. destruct P as [post ->].
  apply prefix_iff. exists (post ++ t). apply append_assoc.
Qed.

Lemma break_at_cons (sep : string) (c : ascii) (s : string) :
  break_at sep (String c s)
  = if prefix sep (String c s)
    then Some ("", drop (String.length sep) (String c s))
    else match break_at sep s with
         | Some (before, after) => Some (String c before, after)
         | None => None
         end.
Proof. reflexivity. Qed.

Lemma break_at_nil (sep : string) :
  break_at sep "" = if prefix sep "" then Some ("", drop (String.length sep) "")
                    else None.
Proof. reflexivity. Qed.

(** [break_at] cuts at an occurrence of the separator, the first one. *)
Lemma break_at_correct {sep s before after : string} :
  sep <> "" ->
  break_at sep s = Some (before, after) ->
  s = before ++ sep ++ after /\ contains sep before = false.
Proof.
  intros N. destruct sep as [|d sep]; [contradiction|]. clear N.
  revert before after. induction s as [|c s IH]; intros before after.
  - rewrite break_at_nil. discriminate.
  - rewrite break_at_cons. destruct (prefix (String d sep) (String c s)) eqn:P.
    + intros E. injection E as <- <-. split; [|reflexivity].
      apply (prefix_drop _ _ P).
    + destruct (break_at (String d sep) s) as [[b a]|] eqn:B; [|discriminate].
      intros E. injection E as <- <-.
      destruct (IH b a eq_refl) as [-> Free]. split; [reflexivity|].
      rewrite contains_cons, Free.
      destruct (prefix (String d sep) (String c b)) eqn:Pb; [|reflexivity].
      apply (prefix_extend _ _ (String d sep ++ a)) in Pb.
      change (String c b ++ String d sep ++ a)
        with (String c (b ++ String d sep ++ a)) in Pb.
      congruence.
Qed.

Lemma break_at_contains (sep s : string) :
  contains sep s = true
  <-> exists before after, break_at sep s = Some (before, after).
Proof.
  induction s as [|c s IH].
  - rewrite break_at_nil. unfold contains.
    destruct (prefix sep ""); split; try discriminate.
    + intros _. eexists. eexists. reflexivity.
    + reflexivity.
    + intros (b & a & E). discriminate.
  - rewrite contains_cons, break_at_cons.
    destruct (prefix sep (String c s)).
    + split; [|reflexivity]. intros _. eexists. eexists. reflexivity.
    + rewrite IH. split; intros (b & a & E).
      * rewrite E. eexists. eexists. reflexivity.
      * destruct (break_at sep s) as [[b' a']|]; [|discriminate].
        eexists. eexists. reflexivity.
Qed.

Lemma break_at_shorter {sep s before after : string} :
  sep <> "" -> break_at sep s = Some (before, after) ->
  (String.length after < String.length s)%nat.
Proof.
  intros N B. apply (break_at_correct N) in B. destruct B as [-> _].
  rewrite !length_append. destruct sep; [contradiction|]. simpl. lia.
Qed.

(** The turns do not matter once there are enough of them. *)
Lemma split_fuel_indep (sep : string) :
  sep <> "" ->
  forall fuel fuel' s,
    (String.length s <= fuel)%nat -> (String.length s <= fuel')%nat ->
    split_fuel fuel sep s = split_fuel fuel' sep s.
Proof.
  intros N. induction fuel as [|fuel IH]; intros fuel' s F F'.
  - destruct s; [|simpl in F; lia].
    destruct fuel'; cbn [split_fuel];
      destruct (break_at sep "") as [[b a]|] eqn:B; try reflexivity;
      apply (break_at_shorter N) in B; simpl in B; lia.
  - destruct fuel' as [|fuel']; cbn [split_fuel];
      destruct (break_at sep s) as [[b a]|] eqn:B; try reflexivity;
      pose proof (break_at_shorter N B) as Sh; [lia|].
    f_equal. apply IH; lia.
Qed.

Lemma split_fuel_enough (sep : string) :
  sep <> "" ->
  forall fuel s,
    (String.length s <= fuel)%nat ->
    split_fuel fuel sep s
    = match break_at sep s with
      | None => [s]
      | Some (before, after) => before :: split sep after
      end.
Proof.
  intros N fuel s F.
  rewrite (@split_fuel_indep sep N fuel (S (String.length s)) s) by lia.
  cbn [split_fuel].
  destruct (break_at sep s) as [[b a]|] eqn:B; [|reflexivity].
  pose proof (break_at_shorter N B) as Sh.
  f_equal. apply split_fuel_indep; [exact N|lia|lia].
Qed.

Lemma split_unfold (sep s : string) :
  sep <> "" ->
  split sep s
  = match break_at sep s with
    | None => [s]
    | Some (before, after) => before :: split sep after
    end.
Proof. intros N. apply split_fuel_enough; [exact N|apply Nat.le_refl]. Qed.

(** The first item of a split: the text up to the first separator, or the
    whole text. *)
Lemma split_head (sep s : string) :
  sep <> "" ->
  exists tail,
    split sep s
    = match break_at sep s with
      | None => s
      | Some (before, _) => before
      end :: tail.
Proof.
  intros N. rewrite split_unfold by exact N.
  destruct (break_at sep s) as [[b a]|]; eexists; reflexivity.
Qed.

End SplitFacts.

Section CodeFacts.

Local Open Scope string_scope.

Lemma index_0 {A : Type} (a : A) (l : list A) : index (a :: l) 0 = Item a.
Proof. reflexivity. Qed.

Lemma index_1 {A : Type} (a b : A) (l : list A) :
  index (a :: b :: l) 1 = Item b.
Proof. reflexivity. Qed.

Lemma prefix_cons (a b : ascii) (s1 s2 : string) :
  prefix (String a s1) (String b s2)
  = if Ascii.ascii_dec a b then prefix s1 s2 else false.
Proof. reflexivity. Qed.

Lemma free_of_cons (c : ascii) (s : string) :
  free_of ["&"; "="]%char (String c s) = true ->
  c <> "&"%char /\ c <> "="%char /\ free_of ["&"; "="]%char s = true.
Proof.
  cbn [free_of existsb]. rewrite andb_true_iff, negb_true_iff, !orb_false_iff.
  intros [(E1 & E2 & _) F].
  repeat split; [| |exact F]; intros ->; discriminate.
Qed.

Lemma prefix_amp (c : ascii) (s : string) :
  c <> "&"%char -> prefix "&" (String c s) = false.
Proof.
  intros N. rewrite prefix_cons.
  destruct (Ascii.ascii_dec "&" c) as [E|]; [|reflexivity].
  symmetry in E. contradiction.
Qed.


(** No occurrence of "code=" starts in a text without '=' and '&' that is
    followed by nothing or by '&'. *)
Lemma no_code_mark_inside (c : ascii) (code rest : string) :
  free_of ["&"; "="]%char (String c code) = true ->
  rest = "" \/ (exists r, rest = "&" ++ r) ->
  prefix "code=" (String c (code ++ rest)) = false.
Proof.
  intros Free End.
  destruct (prefix "code=" (String c (code ++ rest))) eqn:P; [|reflexivity].
  exfalso. apply prefix_iff in P. destruct P as [post P].
  destruct code as [|x1 [|x2 [|x3 [|x4 more]]]];
    destruct End as [->|[r ->]]; simpl in P;
    try discriminate;
    injection P; intros; subst; simpl in Free; discriminate.
Qed.

Lemma break_at_code_mark_after (code rest : string) :
  free_of ["&"; "="]%char code = true ->
  rest = "" \/ (exists r, rest = "&" ++ r) ->
  break_at "code=" (code ++ rest)
  = match break_at "code=" rest with
    | Some (before, after) => Some (code ++ before, after)
    | None => None
    end.
Proof.
  intros Free End. induction code as [|c code IH].
  - simpl. destruct (break_at "code=" rest) as [[b a]|]; reflexivity.
  - change (String c code ++ rest) with (String c (code ++ rest)).
    rewrite break_at_cons, (no_code_mark_inside c code Free End).
    rewrite IH.
    + destruct (break_at "code=" rest) as [[b a]|]; reflexivity.
    + apply free_of_cons in Free. apply Free.
Qed.

Lemma break_at_amp (code rest : string) :
  free_of ["&"; "="]%char code = true ->
  break_at "&" (code ++ "&" ++ rest) = Some (code, rest).
Proof.
  intros Free. induction code as [|c code IH].
  { change ("" ++ "&" ++ rest) with (String "&" rest).
    rewrite break_at_cons.
    replace (prefix "&" (String "&" rest)) with true; [reflexivity|].
    symmetry. apply prefix_iff. exists rest. reflexivity. }
  change (String c code ++ "&" ++ rest)
    with (String c (code ++ "&" ++ rest)).
  apply free_of_cons in Free. destruct Free as (Fc & _ & Free).
  rewrite break_at_cons, (IH Free), (prefix_amp _ Fc). reflexivity.
Qed.

Lemma break_at_amp_none (code : string) :
  free_of ["&"; "="]%char code = true -> break_at "&" code = None.
Proof.
  intros Free. induction code as [|c code IH]; [reflexivity|].
  apply free_of_cons in Free. destruct Free as (Fc & _ & Free).
  rewrite break_at_cons, (IH Free), (prefix_amp _ Fc). reflexivity.
Qed.

(** "code=" does not overlap itself: where it does not occur in [pre], its
    first occurrence in [pre ++ "code=" ++ t] is the one written. *)
Lemma no_code_mark_across (c : ascii) (pre t : string) :
  prefix "code=" (String c pre) = false ->
  prefix "code=" (String c (pre ++ "code=" ++ t)) = false.
Proof.
  intros Free.
  destruct (prefix "code=" (String c (pre ++ "code=" ++ t))) eqn:P;
    [|reflexivity].
  exfalso. apply prefix_iff in P. destruct P as [post P].
  destruct pre as [|x1 [|x2 [|x3 [|x4 more]]]]; simpl in P;
    try discriminate;
    injection P; intros; subst; try discriminate.
  assert (T : prefix "code=" ("code=" ++ more) = true)
    by (apply prefix_iff; exists more; reflexivity).
  change ("code=" ++ more) with
    (String "c" (String "o" (String "d" (String "e" (String "=" more)))))
    in T.
  congruence.
Qed.

Lemma break_at_code_mark (pre t : string) :
  contains "code=" pre = false ->
  break_at "code=" (pre ++ "code=" ++ t) = Some (pre, t).
Proof.
  induction pre as [|c pre IH]; intros Free.
  { change ("" ++ "code=" ++ t) with (String "c" ("ode=" ++ t)).
    rewrite break_at_cons.
    replace (prefix "code=" (String "c" ("ode=" ++ t))) with true;
      [reflexivity|].
    symmetry. apply prefix_iff. exists t. reflexivity. }
  rewrite contains_cons in Free.
  destruct (prefix "code=" (String c pre)) eqn:P; [discriminate|].
  change (String c pre ++ "code=" ++ t)
    with (String c (pre ++ "code=" ++ t)).
  rewrite break_at_cons, (no_code_mark_across c pre t P), (IH Free).
  reflexivity.
Qed.

End CodeFacts.


(** X17. Pasting the whole redirect URL gives back the code it carries:
    when "code=" does not occur before the parameter, the code holds
    neither "&" nor "=" and is followed by nothing or by "&", the code is
    read as it was written. *)
Theorem extract_code_round_trip (pre code rest : string) :
  contains "code=" pre = false ->
  free_of ["&"; "="]%char code = true ->
  rest = ""%string \/ (exists r, rest = ("&" ++ r)%string) ->
  extract_code (pre ++ "code=" ++ code ++ rest)%string = Item code.
Proof.
  intros Fpre Fcode End.
  assert (N1 : "code="%string <> ""%string) by discriminate.
  assert (N2 : "&"%string <> ""%string) by discriminate.
  pose proof (break_at_code_mark pre (code ++ rest)%string Fpre) as B.
  unfold extract_code.
  replace (contains "code=" (pre ++ "code=" ++ code ++ rest)%string)
    with true
    by (symmetry; apply break_at_contains; eexists; eexists; exact B).
  rewrite (split_unfold _ N1), B.
  destruct (split_head (code ++ rest)%string N1) as [tail ->].
  rewrite index_1, (break_at_code_mark_after code Fcode End).
  destruct End as [->|[r ->]].
  - change (break_at "code=" "") with (@None (string * string)).
    rewrite append_nil_r.
    destruct (split_head code N2) as [tail' ->].
    rewrite index_0, (break_at_amp_none code Fcode). reflexivity.
  - change ("&" ++ r)%string with (String "&" r).
    rewrite break_at_cons.
    change (prefix "code=" (String "&" r)) with false.
    destruct (break_at "code=" r) as [[b a]|].
    + destruct (split_head (code ++ String "&" b)%string N2) as [tail' ->].
      rewrite index_0.
      change (code ++ String "&" b)%string with (code ++ "&" ++ b)%string.
      rewrite (break_at_amp code b Fcode). reflexivity.
    + destruct (split_head (code ++ String "&" r)%string N2) as [tail' ->].
      rewrite index_0.
      change (code ++ String "&" r)%string with (code ++ "&" ++ r)%string.
      rewrite (break_at_amp code r Fcode). reflexivity.
Qed.

Lemma extract_code_round_trip_witness :
  extract_code
    ("http://localhost/?state=&" ++ "code=" ++ "4f1c9a" ++ "&scope=read")%string
  = Item "4f1c9a"%string.
Proof.
  apply (@extract_code_round_trip "http://localhost/?state=&" "4f1c9a"
           "&scope=read").
  - reflexivity.
  - reflexivity.
  - right. exists "scope=read"%string. reflexivity.
Defined.

(** * The .env file *)

Section TextFacts.

Local Open Scope string_scope.

Implicit Types (s a b : string) (c : ascii) (chars : list ascii).

Lemma free_of_app chars a b :
  free_of chars (a ++ b) = free_of chars a && free_of chars b.
Proof.
  induction a as [|c a IH]; simpl; [reflexivity|].
  rewrite IH. apply andb_assoc.
Qed.

Lemma free_of_weaken chars chars' s :
  (forall c, In c chars' -> In c chars) ->
  free_of chars s = true -> free_of chars' s = true.
Proof.
  intros Sub. induction s as [|c s IH]; simpl; [reflexivity|].
  rewrite !andb_true_iff, !negb_true_iff. intros [E F].
  split; [|apply IH, F].
  destruct (existsb (Ascii.eqb c) chars') eqn:X; [|reflexivity].
  apply existsb_exists in X. destruct X as (d & Hd & Ed).
  assert (Y : existsb (Ascii.eqb c) chars = true)
    by (apply existsb_exists; exists d; split; [apply Sub, Hd|exact Ed]).
  congruence.
Qed.

Lemma free_of_lstrip chars s :
  free_of chars s = true -> free_of chars (lstrip s) = true.
Proof.
  induction s as [|c s IH]; simpl; [reflexivity|].
  intros F. destruct (is_space c); [|exact F].
  apply andb_true_iff in F. apply IH, F.
Qed.

Lemma free_of_rstrip chars s :
  free_of chars s = true -> free_of chars (rstrip s) = true.
Proof.
  induction s as [|c s IH]; [reflexivity|].
  cbn [free_of rstrip]. rewrite andb_true_iff. intros [E F].
  specialize (IH F).
  destruct (rstrip s) as [|d r].
  - destruct (is_space c); [reflexivity|].
    cbn [free_of]. rewrite E. reflexivity.
  - cbn [free_of] in *. rewrite E. exact IH.
Qed.

(** A separator of one character occurs exactly where the character is. *)
Lemma contains_char c s :
  contains (String c "") s = negb (free_of [c] s).
Proof.
  induction s as [|d s IH]; [reflexivity|].
  rewrite contains_cons, prefix_cons, IH. cbn [free_of existsb].
  assert (P : prefix "" s = true) by (destruct s; reflexivity).
  rewrite P, orb_false_r.
  destruct (Ascii.ascii_dec c d) as [<-|N].
  - rewrite Ascii.eqb_refl. reflexivity.
  - rewrite (proj2 (Ascii.eqb_neq d c)) by congruence. reflexivity.
Qed.

Lemma break_at_char c a b :
  free_of [c] a = true ->
  break_at (String c "") (a ++ String c b) = Some (a, b).
Proof.
  intros F. induction a as [|d a IH].
  - cbn [append]. rewrite break_at_cons, prefix_cons.
    destruct (Ascii.ascii_dec c c) as [_|N]; [|contradiction].
    assert (P : prefix "" b = true) by (destruct b; reflexivity).
    rewrite P. reflexivity.
  - cbn [free_of existsb] in F. rewrite orb_false_r in F.
    apply andb_true_iff in F. destruct F as [E F].
    change (String d a ++ String c b) with (String d (a ++ String c b)).
    rewrite break_at_cons, prefix_cons, (IH F).
    destruct (Ascii.ascii_dec c d) as [<-|N]; [|reflexivity].
    rewrite Ascii.eqb_refl in E. discriminate.
Qed.

Lemma rstrip_snoc_space s c :
  is_space c = true -> rstrip (s ++ String c "") = rstrip s.
Proof.
  intros Sp. induction s as [|d s IH].
  - cbn [append rstrip]. rewrite Sp. reflexivity.
  - change (String d s ++ String c "") with (String d (s ++ String c "")).
    cbn [rstrip]. rewrite IH. reflexivity.
Qed.

Lemma ends_clean_cons c s :
  ends_clean (String c s)
  = match s with
    | "" => negb (is_space c)
    | _ => ends_clean s
    end.
Proof. destruct s; reflexivity. Qed.

Lemma rstrip_clean s : ends_clean s = true -> rstrip s = s.
Proof.
  induction s as [|c s IH]; [reflexivity|].
  rewrite ends_clean_cons. cbn [rstrip]. destruct s as [|d s].
  - cbn [rstrip]. intros E. apply negb_true_iff in E. rewrite E. reflexivity.
  - intros E. rewrite (IH E). reflexivity.
Qed.

Lemma ends_clean_rstrip s : ends_clean (rstrip s) = true.
Proof.
  induction s as [|c s IH]; [reflexivity|]. cbn [rstrip].
  destruct (rstrip s) as [|d r] eqn:R.
  - destruct (is_space c) eqn:Sp; [reflexivity|].
    cbn [ends_clean]. rewrite Sp. reflexivity.
  - rewrite ends_clean_cons. exact IH.
Qed.

Lemma ends_clean_app a b :
  b <> "" -> ends_clean (a ++ b) = ends_clean b.
Proof.
  intros N. induction a as [|c a IH]; [reflexivity|].
  change (String c a ++ b) with (String c (a ++ b)).
  rewrite ends_clean_cons.
  destruct (a ++ b) as [|d r] eqn:E; [|exact IH].
  destruct a; simpl in E; [contradiction|discriminate].
Qed.

Lemma ends_clean_lstrip s :
  ends_clean s = true -> ends_clean (lstrip s) = true.
Proof.
  induction s as [|c s IH]; [reflexivity|].
  cbn [lstrip]. destruct (is_space c) eqn:Sp; [|tauto].
  rewrite ends_clean_cons. destruct s; [reflexivity|exact IH].
Qed.

Lemma lstrip_head s :
  match lstrip s with
  | "" => True
  | String c _ => is_space c = false
  end.
Proof.
  induction s as [|c s IH]; [exact I|].
  cbn [lstrip]. destruct (is_space c) eqn:Sp; [exact IH|exact Sp].
Qed.

Lemma lstrip_clean c s : is_space c = false -> lstrip (String c s) = String c s.
Proof. intros Sp. cbn [lstrip]. rewrite Sp. reflexivity. Qed.

End TextFacts.

Section LineFacts.

Local Open Scope string_scope.

Local Abbreviation line_breaks := ["010"; "013"]%char.

Lemma read_lines_body (body rest current : string) :
  free_of line_breaks body = true ->
  read_lines (body ++ String "010" rest) current false
  = (current ++ body ++ String "010" "") :: read_lines rest "" false.
Proof.
  revert current. induction body as [|c body IH]; intros current F.
  - cbn [append read_lines]. rewrite Ascii.eqb_refl. reflexivity.
  - cbn [free_of existsb] in F. rewrite orb_false_r in F.
    apply andb_true_iff in F. destruct F as [E F].
    apply negb_true_iff, orb_false_iff in E. destruct E as [E1 E2].
    change (String c body ++ String "010" rest)
      with (String c (body ++ String "010" rest)).
    cbn [read_lines]. rewrite E1, E2, (IH _ F). f_equal.
    rewrite append_assoc. reflexivity.
Qed.

Lemma env_text_cons (item : string * string) (d : list (string * string)) :
  env_text (item :: d)
  = (fst item ++ "=" ++ snd item) ++ String "010" (env_text d).
Proof.
  destruct item as [k v]. cbn [env_text fst snd].
  rewrite !append_assoc. reflexivity.
Qed.

Lemma clean_item_free (item : string * string) :
  clean_item item = true ->
  free_of line_breaks (fst item ++ "=" ++ snd item) = true.
Proof.
  unfold clean_item, clean_key, clean_value.
  rewrite !andb_true_iff. intros [[_ Fk] [_ Fv]].
  assert (Fk' : free_of line_breaks (fst item) = true)
    by (revert Fk; apply free_of_weaken; simpl; tauto).
  rewrite !free_of_app, Fk', Fv. reflexivity.
Qed.

(** The lines of the file that [save_tokens] writes are the lines it
    wrote. *)
Lemma file_lines_env_text (d : list (string * string)) :
  forallb clean_item d = true ->
  file_lines (env_text d) = map env_line d.
Proof.
  unfold file_lines. induction d as [|item d IH]; [reflexivity|].
  cbn [forallb map]. rewrite andb_true_iff. intros [C Cd].
  rewrite env_text_cons, (@read_lines_body _ _ _ (@clean_item_free _ C)), (IH Cd).
  f_equal. unfold env_line. cbn [append]. rewrite !append_assoc. reflexivity.
Qed.

(** Every line read from a file is free of line breaks but for the line
    feed that may end it. *)
Lemma read_lines_shape (content current : string) (after_cr : bool) :
  free_of line_breaks current = true ->
  Forall (fun line =>
            exists body, free_of line_breaks body = true
                         /\ (line = body \/ line = body ++ String "010" ""))
         (read_lines content current after_cr).
Proof.
  revert current after_cr.
  induction content as [|c content IH]; intros current after_cr F.
  - cbn [read_lines]. destruct current; constructor; [|constructor].
    eexists. split; [exact F|left; reflexivity].
  - cbn [read_lines]. destruct (Ascii.eqb c "010") eqn:E1.
    + destruct after_cr; [apply IH, F|].
      constructor; [|apply IH; reflexivity].
      eexists. split; [exact F|right; reflexivity].
    + destruct (Ascii.eqb c "013") eqn:E2.
      * constructor; [|apply IH; reflexivity].
        eexists. split; [exact F|right; reflexivity].
      * apply IH. rewrite free_of_app, F. cbn [free_of existsb].
        rewrite E1, E2. reflexivity.
Qed.

Lemma strip_free (line : string) :
  (exists body, free_of line_breaks body = true
                /\ (line = body \/ line = body ++ String "010" "")) ->
  free_of line_breaks (strip line) = true.
Proof.
  intros (body & F & [->| ->]); unfold strip.
  - apply free_of_lstrip, free_of_rstrip, F.
  - rewrite rstrip_snoc_space by reflexivity.
    apply free_of_lstrip, free_of_rstrip, F.
Qed.

Lemma strip_ends_clean (s : string) : ends_clean (strip s) = true.
Proof. apply ends_clean_lstrip, ends_clean_rstrip. Qed.

Lemma strip_head (s : string) :
  match strip s with
  | "" => True
  | String c _ => is_space c = false
  end.
Proof. apply lstrip_head. Qed.

Lemma ends_clean_setting (k v : string) :
  ends_clean (k ++ "=" ++ v) = ends_clean v.
Proof.
  rewrite ends_clean_app by discriminate.
  change ("=" ++ v) with (String "=" v). rewrite ends_clean_cons.
  destruct v; reflexivity.
Qed.

(** A clean item is written as a line that strips to the key, the sign
    and the value. *)
Lemma strip_env_line (item : string * string) :
  clean_item item = true ->
  strip (env_line item) = fst item ++ "=" ++ snd item.
Proof.
  destruct item as [k v]. unfold clean_item, clean_key, clean_value.
  cbn [fst snd]. rewrite !andb_true_iff. intros [[Hk _] [Hv _]].
  unfold strip, env_line. cbn [fst snd].
  replace (k ++ "=" ++ v ++ String "010" "")
    with ((k ++ "=" ++ v) ++ String "010" "")
    by (rewrite !append_assoc; reflexivity).
  rewrite rstrip_snoc_space by reflexivity.
  rewrite rstrip_clean by (rewrite ends_clean_setting; exact Hv).
  destruct k as [|c k]; [reflexivity|].
  apply andb_true_iff in Hk. destruct Hk as [Sp _].
  apply negb_true_iff in Sp. apply (@lstrip_clean _ _ Sp).
Qed.

Lemma is_setting_clean (item : string * string) :
  clean_item item = true ->
  is_setting (fst item ++ "=" ++ snd item) = true.
Proof.
  destruct item as [k v]. unfold clean_item, clean_key.
  cbn [fst snd]. rewrite !andb_true_iff. intros [[Hk _] _].
  unfold is_setting. rewrite !andb_true_iff. split; [split|].
  - destruct k; reflexivity.
  - destruct k as [|c k]; [reflexivity|].
    apply andb_true_iff in Hk. destruct Hk as [_ Hash].
    apply negb_true_iff in Hash.
    change (String c k ++ "=" ++ v) with (String c (k ++ "=" ++ v)).
    rewrite prefix_cons.
    destruct (Ascii.ascii_dec "#" c) as [<-|_]; [discriminate|reflexivity].
  - apply contains_iff. exists k, v. reflexivity.
Qed.

Lemma split_once_clean (item : string * string) :
  clean_item item = true ->
  split_once "=" (fst item ++ "=" ++ snd item) = [fst item; snd item].
Proof.
  destruct item as [k v]. unfold clean_item, clean_key.
  cbn [fst snd]. rewrite !andb_true_iff. intros [[_ Fk] _].
  unfold split_once. change ("=" ++ v) with (String "=" v).
  rewrite break_at_char; [reflexivity|].
  revert Fk. apply free_of_weaken. simpl. tauto.
Qed.

End LineFacts.

Section IntegerFacts.

Local Open Scope string_scope.

Lemma no_blank_ends_clean (s : string) : no_blank s = true -> ends_clean s = true.
Proof.
  induction s as [|c s IH]; [reflexivity|].
  cbn [no_blank]. rewrite andb_true_iff, ends_clean_cons. intros [Sp B].
  destruct s; [exact Sp|exact (IH B)].
Qed.

Lemma no_blank_strip (s : string) : no_blank s = true -> strip s = s.
Proof.
  intros B. unfold strip. rewrite (rstrip_clean _ (no_blank_ends_clean _ B)).
  destruct s as [|c s]; [reflexivity|].
  cbn [no_blank] in B. apply andb_true_iff in B. destruct B as [Sp _].
  apply negb_true_iff in Sp. apply (@lstrip_clean _ _ Sp).
Qed.

Lemma no_blank_free (s : string) :
  no_blank s = true -> free_of ["010"; "013"]%char s = true.
Proof.
  induction s as [|c s IH]; [reflexivity|].
  cbn [no_blank free_of existsb]. rewrite !andb_true_iff. intros [Sp B].
  split; [|exact (IH B)].
  rewrite orb_false_r. apply negb_true_iff. apply negb_true_iff in Sp.
  destruct (Ascii.eqb c "010") eqn:E1;
    [apply Ascii.eqb_eq in E1; subst c; discriminate|].
  destruct (Ascii.eqb c "013") eqn:E2;
    [apply Ascii.eqb_eq in E2; subst c; discriminate|].
  reflexivity.
Qed.

Lemma no_blank_clean (s : string) : no_blank s = true -> clean_value s = true.
Proof.
  intros B. unfold clean_value.
  rewrite (no_blank_ends_clean _ B), (no_blank_free _ B). reflexivity.
Qed.

Lemma digits_no_blank (d : Decimal.uint) :
  no_blank (NilEmpty.string_of_uint d) = true.
Proof.
  induction d; cbn [NilEmpty.string_of_uint no_blank];
    rewrite ?IHd; reflexivity.
Qed.

(** Reading the digits of a number written in base ten gives the number
    back, on top of what was read before. *)
Lemma parse_digits_uint (d : Decimal.uint) (acc : Z) (after_digit : bool) :
  d <> Decimal.Nil \/ after_digit = true ->
  parse_digits (NilEmpty.string_of_uint d) acc after_digit
  = Some (acc * 10 ^ Z.of_N (DecimalPos.Unsigned.usize d)
          + Z.of_N (Pos.of_uint d))%Z.
Proof.
  rewrite DecimalPos.Unsigned.of_uint_alt.
  revert acc after_digit.
  induction d; intros acc after_digit H;
    [destruct H as [H|H]; [contradiction|subst after_digit];
     cbn; f_equal; lia|..];
    unfold Decimal.rev; cbn [Decimal.revapp];
    rewrite (DecimalPos.Unsigned.of_lu_revapp d);
    cbn [NilEmpty.string_of_uint parse_digits];
    match goal with
    | |- context [digit_of ?c] =>
        let v := eval vm_compute in (digit_of c) in
        change (digit_of c) with v; cbv iota
    end;
    rewrite IHd by (right; reflexivity);
    f_equal;
    cbn [DecimalPos.Unsigned.usize DecimalPos.Unsigned.of_lu];
    rewrite N2Z.inj_succ, Z.pow_succ_r by lia;
    rewrite N2Z.inj_add, N2Z.inj_mul, N2Z.inj_pow;
    cbn [Z.of_N N.mul N.add Pos.mul Pos.add]; ring.
Qed.

Lemma py_int_digits (d : Decimal.uint) :
  d <> Decimal.Nil ->
  py_int (NilEmpty.string_of_uint d) = Ok (Z.of_N (Pos.of_uint d))
  /\ py_int (String "-" (NilEmpty.string_of_uint d))
     = Ok (- Z.of_N (Pos.of_uint d))%Z.
Proof.
  intros N. split; unfold py_int.
  - rewrite (no_blank_strip _ (digits_no_blank d)).
    assert (P := @parse_digits_uint d 0 false (or_introl N)).
    rewrite Z.mul_0_l, Z.add_0_l in P.
    destruct d; [contradiction|..];
      cbn [NilEmpty.string_of_uint] in *; cbv iota beta; rewrite P;
      reflexivity.
  - rewrite no_blank_strip
      by (cbn [no_blank]; rewrite digits_no_blank; reflexivity).
    cbv iota beta.
    rewrite (@parse_digits_uint d 0 false (or_introl N)).
    rewrite Z.mul_0_l, Z.add_0_l. reflexivity.
Qed.

Lemma str_of_int_cases (z : Z) :
  str_of_int z
  = match z with
    | Z0 => "0"
    | Zpos p => NilEmpty.string_of_uint (Pos.to_uint p)
    | Zneg p => String "-" (NilEmpty.string_of_uint (Pos.to_uint p))
    end.
Proof.
  destruct z as [|p|p]; [reflexivity|..];
    unfold str_of_int; cbn [Z.to_int NilZero.string_of_int];
    unfold NilZero.string_of_uint;
    destruct (Pos.to_uint p) eqn:E; try reflexivity;
    destruct (DecimalPos.Unsigned.to_uint_nonnil _ E).
Qed.

(** [int(str(z)) == z] *)
Lemma py_int_str_of_int (z : Z) : py_int (str_of_int z) = Ok z.
Proof.
  rewrite str_of_int_cases. destruct z as [|p|p]; [reflexivity|..];
    destruct (@py_int_digits _ (@DecimalPos.Unsigned.to_uint_nonnil p)) as [P M];
    rewrite DecimalPos.Unsigned.of_to in P, M; assumption.
Qed.

Lemma str_of_int_no_blank (z : Z) : no_blank (str_of_int z) = true.
Proof.
  rewrite str_of_int_cases. destruct z; [reflexivity|..];
    cbn [no_blank]; rewrite digits_no_blank; reflexivity.
Qed.

Lemma str_of_int_nonempty (z : Z) : String.eqb (str_of_int z) "" = false.
Proof.
  rewrite str_of_int_cases. destruct z as [|p|p]; [reflexivity| |reflexivity].
  destruct (Pos.to_uint p) eqn:E; try reflexivity.
  destruct (DecimalPos.Unsigned.to_uint_nonnil _ E).
Qed.

End IntegerFacts.

Section EnvFacts.

Local Open Scope string_scope.

Local Abbreviation line_breaks := ["010"; "013"]%char.

Local Abbreviation line_shape :=
  (fun line : string =>
     exists body, free_of line_breaks body = true
                  /\ (line = body \/ line = body ++ String "010" "")).

Implicit Types (d acc : list (string * string)) (k v key line : string).

Lemma free_of_more (c : ascii) (chars : list ascii) (s : string) :
  free_of (c :: chars) s = free_of [c] s && free_of chars s.
Proof.
  induction s as [|a s IH]; [reflexivity|].
  cbn [free_of existsb]. rewrite IH, orb_false_r, negb_orb.
  destruct (negb (Ascii.eqb a c)), (negb (existsb (Ascii.eqb a) chars)),
    (free_of [c] s), (free_of chars s); reflexivity.
Qed.

(** A line that passes the test splits in two. *)
Lemma setting_parts line :
  is_setting line = true ->
  exists k v, split_once "=" line = [k; v]
              /\ line = k ++ "=" ++ v /\ free_of ["="%char] k = true.
Proof.
  unfold is_setting. rewrite !andb_true_iff. intros [_ C].
  apply break_at_contains in C. destruct C as (k & v & B).
  exists k, v. unfold split_once. rewrite B. split; [reflexivity|].
  assert (N : "=" <> "") by discriminate.
  destruct (break_at_correct N B) as [E F]. split; [exact E|].
  rewrite contains_char in F. apply negb_false_iff, F.
Qed.

(** What a line of a file gives is a clean item. *)
Lemma setting_clean line k v :
  line_shape line ->
  is_setting (strip line) = true ->
  strip line = k ++ "=" ++ v ->
  free_of ["="%char] k = true ->
  clean_item (k, v) = true.
Proof.
  intros Sh S E Fk.
  assert (F := strip_free Sh). assert (Ec := strip_ends_clean line).
  assert (Hd := strip_head line). rewrite E in F, Ec, Hd, S.
  rewrite ends_clean_setting in Ec. rewrite !free_of_app in F.
  apply andb_true_iff in F. destruct F as [F1 F2].
  apply andb_true_iff in F2. destruct F2 as [_ F2].
  unfold clean_item, clean_key, clean_value. cbn [fst snd].
  rewrite Ec, F2, free_of_more, Fk, F1, !andb_true_r.
  destruct k as [|c k]; [reflexivity|].
  change (String c k ++ "=" ++ v) with (String c (k ++ "=" ++ v)) in Hd, S.
  rewrite Hd. unfold is_setting in S. rewrite !andb_true_iff in S.
  destruct S as [[_ S] _]. rewrite prefix_cons in S.
  destruct (Ascii.ascii_dec "#" c) as [<-|Nc].
  - destruct (k ++ "=" ++ v); discriminate.
  - rewrite (proj2 (Ascii.eqb_neq c "#")) by congruence. reflexivity.
Qed.

Lemma dict_set_clean d k v :
  forallb clean_item d = true -> clean_item (k, v) = true ->
  forallb clean_item (dict_set d k v) = true.
Proof.
  intros C Ci. induction d as [|[k' x] rest IH]; cbn [dict_set forallb].
  - rewrite Ci. reflexivity.
  - cbn [forallb] in C. apply andb_true_iff in C. destruct C as [C1 C2].
    destruct (String.eqb k' k) eqn:E; cbn [forallb].
    + apply String.eqb_eq in E. subst k'. rewrite Ci, C2. reflexivity.
    + rewrite C1, (IH C2). reflexivity.
Qed.

Lemma dict_set_fresh (V : Type) (d : list (string * V)) k (x : V) :
  ~ In k (map fst d) -> dict_set d k x = (d ++ [(k, x)])%list.
Proof.
  induction d as [|[k' y] rest IH]; cbn [dict_set map fst In app];
    [reflexivity|].
  intros N. destruct (String.eqb k' k) eqn:E.
  - apply String.eqb_eq in E. tauto.
  - rewrite IH by tauto. reflexivity.
Qed.

Lemma dict_set_same (V : Type) (d : list (string * V)) k (x : V) :
  dict_get d k = Some x -> dict_set d k x = d.
Proof.
  induction d as [|[k' y] rest IH]; cbn [dict_set dict_get]; [discriminate|].
  destruct (String.eqb k' k); [intros [= ->]; reflexivity|].
  intros G. rewrite (IH G). reflexivity.
Qed.

Lemma dict_get_fresh (V : Type) (d : list (string * V)) k :
  ~ In k (map fst d) -> dict_get d k = None.
Proof.
  intros N. destruct (dict_get d k) eqn:G; [|reflexivity].
  destruct N. apply dict_get_In. eexists. exact G.
Qed.

(** The reading loop of [save_tokens] never fails, and what it gathers
    is a dict of clean items. *)
Lemma read_env_returns (lines : list string) acc :
  Forall line_shape lines ->
  forallb clean_item acc = true ->
  NoDup (map fst acc) ->
  exists d, read_env lines acc = Ok d
            /\ forallb clean_item d = true /\ NoDup (map fst d).
Proof.
  intros Sh. revert acc. induction Sh as [|line lines S Sh IH]; intros acc C N.
  - exists acc. repeat split; assumption.
  - cbn [read_env]. destruct (is_setting (strip line)) eqn:T; [|apply IH; assumption].
    destruct (setting_parts _ T) as (k & v & P & E & Fk).
    rewrite P. cbn [unpack2 bind]. apply IH.
    + apply dict_set_clean; [exact C|]. apply (@setting_clean line k v S T E Fk).
    + apply dict_set_NoDup, N.
Qed.

(** Read again, the lines [save_tokens] wrote give the dict they were
    written from. *)
Lemma read_env_env_lines d acc :
  forallb clean_item d = true ->
  NoDup (map fst (acc ++ d)) ->
  read_env (map env_line d) acc = Ok (acc ++ d)%list.
Proof.
  revert acc. induction d as [|[k v] rest IH]; intros acc C N.
  - rewrite app_nil_r. reflexivity.
  - cbn [forallb] in C. apply andb_true_iff in C. destruct C as [Ci C].
    cbn [map read_env].
    rewrite (strip_env_line _ Ci), (is_setting_clean _ Ci),
      (split_once_clean _ Ci).
    cbn [fst snd unpack2 bind].
    rewrite dict_set_fresh.
    + replace (acc ++ (k, v) :: rest)%list
        with ((acc ++ [(k, v)]) ++ rest)%list
        by (rewrite <- app_assoc; reflexivity).
      apply IH; [exact C|]. rewrite <- app_assoc. exact N.
    + rewrite map_app in N. cbn [map fst] in N.
      apply NoDup_remove_2 in N. intros I. apply N, in_or_app. left. exact I.
Qed.

End EnvFacts.

Section TokenFile.

Local Open Scope string_scope.

Implicit Types (d acc : list (string * string)) (k v key line : string).

Local Abbreviation expires_text t :=
  (match expires_at t with
   | Some e => str_of_int e
   | None => ""
   end).

Local Abbreviation with_tokens t d :=
  (dict_set
     (dict_set
        (dict_set d "STRAVA_ACCESS_TOKEN" (get (access_token t) ""))
        "STRAVA_REFRESH_TOKEN" (get (refresh_token t) ""))
     "STRAVA_TOKEN_EXPIRES_AT" (expires_text t)).

Local Abbreviation env_of env_file :=
  (match env_file with
   | Some content => read_env (file_lines content) []
   | None => Ok []
   end).

(** [load_credentials] reads from the lines what the reading loop of
    [save_tokens] keeps under the two keys. *)
Lemma load_credentials_loop_dict (lines : list string) :
  forall acc (c : credentials),
    client_id c = dict_get acc "STRAVA_CLIENT_ID" ->
    client_secret c = dict_get acc "STRAVA_CLIENT_SECRET" ->
    exists d c',
      read_env lines acc = Ok d
      /\ load_credentials_loop lines c = Ok c'
      /\ client_id c' = dict_get d "STRAVA_CLIENT_ID"
      /\ client_secret c' = dict_get d "STRAVA_CLIENT_SECRET".
Proof.
  induction lines as [|line lines IH]; intros acc c I S.
  - exists acc, c. repeat split; assumption.
  - cbn [read_env load_credentials_loop].
    destruct (is_setting (strip line)) eqn:T; [|apply IH; assumption].
    destruct (setting_parts _ T) as (k & v & P & _ & _).
    rewrite P. cbn [unpack2 bind].
    destruct (String.eqb k "STRAVA_CLIENT_ID") eqn:E1;
      [|destruct (String.eqb k "STRAVA_CLIENT_SECRET") eqn:E2];
      apply IH; cbn [client_id client_secret]; rewrite dict_get_set;
      try (apply String.eqb_eq in E1; subst k);
      try (apply String.eqb_eq in E2; subst k);
      try rewrite E1; try rewrite E2; try reflexivity; assumption.
Qed.

Lemma load_credentials_of_dict (content : string) d :
  read_env (file_lines content) [] = Ok d ->
  load_credentials (Some content)
  = Ok match dict_get d "STRAVA_CLIENT_ID",
             dict_get d "STRAVA_CLIENT_SECRET" with
       | Some i, Some s =>
           Some {| client_id := Some i; client_secret := Some s |}
       | _, _ => None
       end.
Proof.
  intros R. unfold load_credentials.
  destruct (load_credentials_loop_dict (file_lines content) []
              {| client_id := None; client_secret := None |}
              eq_refl eq_refl) as (d' & c' & R' & L & I & S).
  rewrite R in R'. injection R' as <-.
  rewrite L. cbn [bind]. rewrite <- I, <- S.
  destruct c' as [[i|] [s|]]; reflexivity.
Qed.

(** What [load_tokens] makes of the lines [save_tokens] wrote, when the
    expiry they hold reads as [e0]. *)
Lemma load_tokens_env_lines d :
  forall (t : tokens) (e0 : Z),
    forallb clean_item d = true ->
    NoDup (map fst d) ->
    (forall v, dict_get d "STRAVA_TOKEN_EXPIRES_AT" = Some v ->
               (if String.eqb v "" then Ok 0%Z else py_int v) = Ok e0) ->
    load_tokens_loop (map env_line d) t
    = Ok {| access_token :=
              match dict_get d "STRAVA_ACCESS_TOKEN" with
              | Some v => Some v
              | None => access_token t
              end;
            refresh_token :=
              match dict_get d "STRAVA_REFRESH_TOKEN" with
              | Some v => Some v
              | None => refresh_token t
              end;
            expires_at :=
              match dict_get d "STRAVA_TOKEN_EXPIRES_AT" with
              | Some _ => Some e0
              | None => expires_at t
              end |}.
Proof.
  induction d as [|[k v] rest IH]; intros t e0 C N E.
  - destruct t; reflexivity.
  - cbn [forallb] in C. apply andb_true_iff in C. destruct C as [Ci C].
    cbn [map fst] in N. inversion N as [|? ? Nk Nr]; subst.
    cbn [map load_tokens_loop].
    rewrite (strip_env_line _ Ci), (is_setting_clean _ Ci),
      (split_once_clean _ Ci).
    cbn [fst snd unpack2 bind]. cbn [dict_get] in E |- *.
    destruct (String.eqb k "STRAVA_ACCESS_TOKEN") eqn:E1;
      [|destruct (String.eqb k "STRAVA_REFRESH_TOKEN") eqn:E2;
        [|destruct (String.eqb k "STRAVA_TOKEN_EXPIRES_AT") eqn:E3]].
    + apply String.eqb_eq in E1. subst k. cbn [String.eqb Ascii.eqb Bool.eqb] in E |- *.
      rewrite (IH _ e0 C Nr E), (dict_get_fresh _ _ Nk). reflexivity.
    + apply String.eqb_eq in E2. subst k. cbn [String.eqb Ascii.eqb Bool.eqb] in E |- *.
      rewrite (IH _ e0 C Nr E), (dict_get_fresh _ _ Nk). reflexivity.
    + apply String.eqb_eq in E3. subst k.
      rewrite (E v eq_refl). cbn [bind].
      rewrite (IH _ e0 C Nr), (dict_get_fresh _ _ Nk); [reflexivity|].
      rewrite (dict_get_fresh _ _ Nk). discriminate.
    + rewrite (IH _ e0 C Nr E). reflexivity.
Qed.

(** The dict [save_tokens] writes, and how its file reads. *)
Lemma save_tokens_dict (t : tokens) (env_file : option string) :
  clean_value (get (access_token t) "") = true ->
  clean_value (get (refresh_token t) "") = true ->
  exists d0,
    env_of env_file = Ok d0
    /\ save_tokens t env_file = Ok (env_text (with_tokens t d0))
    /\ forallb clean_item (with_tokens t d0) = true
    /\ NoDup (map fst (with_tokens t d0))
    /\ file_lines (env_text (with_tokens t d0))
       = map env_line (with_tokens t d0).
Proof.
  intros Ca Cr.
  assert (R : exists d0, env_of env_file = Ok d0
                         /\ forallb clean_item d0 = true
                         /\ NoDup (map fst d0)).
  { destruct env_file as [content|].
    - apply read_env_returns; [|reflexivity|constructor].
      apply read_lines_shape. reflexivity.
    - exists []. repeat split. constructor. }
  destruct R as (d0 & R & C & N). exists d0.
  assert (C' : forallb clean_item (with_tokens t d0) = true).
  { repeat apply dict_set_clean; try exact C; unfold clean_item; cbn [fst snd].
    - rewrite Ca. reflexivity.
    - rewrite Cr. reflexivity.
    - destruct (expires_at t) as [e|]; [|reflexivity].
      rewrite (no_blank_clean _ (str_of_int_no_blank e)). reflexivity. }
  split; [exact R|]. split; [|split; [exact C'|split]].
  - unfold save_tokens. rewrite R. reflexivity.
  - repeat apply dict_set_NoDup. exact N.
  - apply file_lines_env_text, C'.
Qed.

End TokenFile.

Section TokenFileTheorems.

Local Open Scope string_scope.

Local Abbreviation expires_text t :=
  (match expires_at t with
   | Some e => str_of_int e
   | None => ""
   end).

Local Abbreviation with_tokens t d :=
  (dict_set
     (dict_set
        (dict_set d "STRAVA_ACCESS_TOKEN" (get (access_token t) ""))
        "STRAVA_REFRESH_TOKEN" (get (refresh_token t) ""))
     "STRAVA_TOKEN_EXPIRES_AT" (expires_text t)).

Lemma with_tokens_get (t : tokens) (d : list (string * string)) :
  dict_get (with_tokens t d) "STRAVA_ACCESS_TOKEN"
  = Some (get (access_token t) "")
  /\ dict_get (with_tokens t d) "STRAVA_REFRESH_TOKEN"
     = Some (get (refresh_token t) "")
  /\ dict_get (with_tokens t d) "STRAVA_TOKEN_EXPIRES_AT"
     = Some (expires_text t)
  /\ dict_get (with_tokens t d) "STRAVA_CLIENT_ID"
     = dict_get d "STRAVA_CLIENT_ID"
  /\ dict_get (with_tokens t d) "STRAVA_CLIENT_SECRET"
     = dict_get d "STRAVA_CLIENT_SECRET".
Proof. rewrite !dict_get_set. repeat split. Qed.

Lemma expires_text_reads (t : tokens) :
  (if String.eqb (expires_text t) "" then Ok 0%Z
   else py_int (expires_text t))
  = Ok (get (expires_at t) 0%Z).
Proof.
  destruct (expires_at t) as [e|]; [|reflexivity].
  rewrite str_of_int_nonempty. apply py_int_str_of_int.
Qed.

Lemma py_int_raises (text : string) (e : exn) :
  py_int text = Raise e -> e = ValueError.
Proof.
  unfold py_int.
  destruct (match strip text with
            | String "-" rest => (true, rest)
            | String "+" rest => (false, rest)
            | _ => (false, strip text)
            end) as [negative digits].
  destruct (parse_digits digits 0 false); [discriminate|].
  intros [= <-]. reflexivity.
Qed.

Lemma load_tokens_loop_raises (lines : list string) :
  forall (t : tokens) (e : exn),
    load_tokens_loop lines t = Raise e
    <-> exists v, In ("STRAVA_TOKEN_EXPIRES_AT", v) (settings lines)
                  /\ v <> "" /\ py_int v = Raise e.
Proof.
  induction lines as [|line lines IH]; intros t e.
  - split; [discriminate|]. intros (v & [] & _).
  - cbn [load_tokens_loop settings].
    destruct (is_setting (strip line)) eqn:T; [|apply IH].
    destruct (setting_parts _ T) as (k & v & P & _ & _).
    rewrite P. unfold split_once in P.
    destruct (break_at "=" (strip line)) as [[b a]|]; [|discriminate].
    injection P as -> ->. cbn [unpack2 bind].
    assert (Other : String.eqb k "STRAVA_TOKEN_EXPIRES_AT" = false ->
                    forall t', load_tokens_loop lines t' = Raise e
                    <-> exists v', In ("STRAVA_TOKEN_EXPIRES_AT", v')
                                      ((k, v) :: settings lines)
                                   /\ v' <> "" /\ py_int v' = Raise e).
    { intros Ne t'. rewrite IH. split; intros (v' & I & R).
      - exists v'. split; [right; exact I|exact R].
      - exists v'. split; [|exact R]. destruct I as [I|I]; [|exact I].
        injection I as -> _. rewrite String.eqb_refl in Ne. discriminate. }
    destruct (String.eqb k "STRAVA_ACCESS_TOKEN") eqn:E1;
      [apply String.eqb_eq in E1; subst k; apply Other; reflexivity|].
    destruct (String.eqb k "STRAVA_REFRESH_TOKEN") eqn:E2;
      [apply String.eqb_eq in E2; subst k; apply Other; reflexivity|].
    destruct (String.eqb k "STRAVA_TOKEN_EXPIRES_AT") eqn:E3;
      [|apply Other; reflexivity].
    apply String.eqb_eq in E3. subst k.
    assert (Reads : forall e1,
               (if String.eqb v "" then Ok 0%Z else py_int v) = Ok e1 ->
               forall t', load_tokens_loop lines t' = Raise e
               <-> exists v', In ("STRAVA_TOKEN_EXPIRES_AT", v')
                                 (("STRAVA_TOKEN_EXPIRES_AT", v)
                                    :: settings lines)
                              /\ v' <> "" /\ py_int v' = Raise e).
    { intros e1 R t'. rewrite IH. split; intros (v' & I & Nv & Rv).
      - exists v'. split; [right; exact I|split; assumption].
      - exists v'. split; [|split; assumption].
        destruct I as [I|I]; [|exact I]. injection I as <-.
        destruct (String.eqb v "") eqn:Ev;
          [apply String.eqb_eq in Ev; contradiction|congruence]. }
    destruct (String.eqb v "") eqn:Ev; [apply (Reads 0%Z eq_refl)|].
    destruct (py_int v) as [e1|x] eqn:Pv; [apply (Reads e1 eq_refl)|].
    cbn [bind]. pose proof (py_int_raises _ Pv) as ->. split.
    + intros [= <-]. exists v. split; [left; reflexivity|].
      split; [|exact Pv]. intros ->. discriminate.
    + intros (v' & _ & _ & Rv). apply py_int_raises in Rv. congruence.
Qed.

End TokenFileTheorems.

(** X18. What [save_tokens] writes, [load_tokens] reads back: for tokens
    whose texts hold no line break and end with no blank, and whatever
    the file held before or whether it was there, the file written gives
    the access token, the refresh token and the expiry that were saved,
    an absent key reading as the empty text or as 0. *)
Theorem save_then_load_tokens (t : tokens) (env_file : option string) :
  clean_value (get (access_token t) ""%string) = true ->
  clean_value (get (refresh_token t) ""%string) = true ->
  exists content,
    save_tokens t env_file = Ok content
    /\ load_tokens (Some content)
       = Ok (Some {| access_token := Some (get (access_token t) ""%string);
                     refresh_token := Some (get (refresh_token t) ""%string);
                     expires_at := Some (get (expires_at t) 0%Z) |}).
Proof.
  intros Ca Cr.
  destruct (save_tokens_dict t env_file Ca Cr) as (d0 & _ & S & C & N & L).
  eexists. split; [exact S|].
  destruct (with_tokens_get t d0) as (Ga & Gr & Ge & _).
  unfold load_tokens. rewrite L.
  rewrite (@load_tokens_env_lines _ _ (get (expires_at t) 0%Z) C N).
  - rewrite Ga, Gr, Ge. reflexivity.
  - intros v. rewrite Ge. intros [= <-]. apply expires_text_reads.
Qed.

Lemma save_then_load_tokens_witness :
  exists content,
    save_tokens sample_tokens (Some sample_env) = Ok content
    /\ load_tokens (Some content)
       = Ok (Some {| access_token := Some "a1b2c3"%string;
                     refresh_token := Some "d4e5f6"%string;
                     expires_at := Some 1700000000%Z |}).
Proof.
  apply (@save_then_load_tokens sample_tokens (Some sample_env));
    reflexivity.
Defined.

(** X19. Saving tokens leaves the credentials alone: for tokens whose
    texts hold no line break and end with no blank, [load_credentials]
    answers on the file written what it answered before, found or not. *)
Theorem save_tokens_keeps_credentials (t : tokens) (env_file : option string) :
  clean_value (get (access_token t) ""%string) = true ->
  clean_value (get (refresh_token t) ""%string) = true ->
  exists content,
    save_tokens t env_file = Ok content
    /\ load_credentials (Some content) = load_credentials env_file.
Proof.
  intros Ca Cr.
  destruct (save_tokens_dict t env_file Ca Cr) as (d0 & R & S & C & N & L).
  eexists. split; [exact S|].
  destruct (with_tokens_get t d0) as (_ & _ & _ & Gi & Gs).
  pose proof (@read_env_env_lines _ [] C N) as R'.
  cbn [app] in R'. rewrite <- L in R'.
  rewrite (load_credentials_of_dict _ R'), Gi, Gs. destruct env_file as [content|].
  - symmetry. apply load_credentials_of_dict, R.
  - injection R as <-. reflexivity.
Qed.

Lemma save_tokens_keeps_credentials_witness :
  exists content,
    save_tokens sample_tokens (Some sample_env) = Ok content
    /\ load_credentials (Some content) = load_credentials (Some sample_env).
Proof.
  apply (@save_tokens_keeps_credentials sample_tokens (Some sample_env));
    reflexivity.
Defined.

(** X20. Saving the same tokens again changes nothing: for tokens whose
    texts hold no line break and end with no blank, [save_tokens] on the
    file it has just written writes the same file. *)
Theorem save_tokens_twice (t : tokens) (env_file : option string) :
  clean_value (get (access_token t) ""%string) = true ->
  clean_value (get (refresh_token t) ""%string) = true ->
  exists content,
    save_tokens t env_file = Ok content
    /\ save_tokens t (Some content) = Ok content.
Proof.
  intros Ca Cr.
  destruct (save_tokens_dict t env_file Ca Cr) as (d0 & _ & S & C & N & L).
  eexists. split; [exact S|].
  destruct (with_tokens_get t d0) as (Ga & Gr & Ge & _).
  unfold save_tokens at 1. rewrite L, (@read_env_env_lines _ [] C N).
  cbn [app bind].
  rewrite (dict_set_same _ _ Ga), (dict_set_same _ _ Gr),
    (dict_set_same _ _ Ge).
  reflexivity.
Qed.

Lemma save_tokens_twice_witness :
  exists content,
    save_tokens sample_tokens (Some sample_env) = Ok content
    /\ save_tokens sample_tokens (Some content) = Ok content.
Proof.
  apply (@save_tokens_twice sample_tokens (Some sample_env)); reflexivity.
Defined.

(** X21. [load_tokens] raises on exactly one kind of file: one where a
    setting of STRAVA_TOKEN_EXPIRES_AT has a value that is not empty and
    that [int] rejects, wherever the line stands and whatever follows it;
    the exception is then ValueError. *)
Theorem load_tokens_raises (content : string) (e : exn) :
  load_tokens (Some content) = Raise e
  <-> e = ValueError
      /\ exists v,
           In ("STRAVA_TOKEN_EXPIRES_AT"%string, v)
              (settings (file_lines content))
           /\ v <> ""%string /\ py_int v = Raise ValueError.
Proof.
  unfold load_tokens.
  destruct (load_tokens_loop (file_lines content)
              {| access_token := None; refresh_token := None;
                 expires_at := None |}) as [t'|x] eqn:L.
  - split.
    + cbn [bind]. destruct (access_token t'), (refresh_token t'); discriminate.
    + intros [-> R].
      apply (load_tokens_loop_raises (file_lines content)
               {| access_token := None; refresh_token := None;
                  expires_at := None |} ValueError) in R.
      congruence.
  - cbn [bind]. pose proof L as R. apply load_tokens_loop_raises in R.
    destruct R as (v & I & Nv & Rv).
    pose proof (py_int_raises _ Rv) as ->. split.
    + intros [= <-]. split; [reflexivity|]. exists v. repeat split; assumption.
    + intros [-> _]. reflexivity.
Qed.

(** X22. [save_tokens] and [load_credentials] raise on no file: a line
    that passes the test holds "=", so it always splits in a key and a
    value. *)
Theorem save_and_credentials_never_raise
  (t : tokens) (env_file : option string) :
  (exists content, save_tokens t env_file = Ok content)
  /\ (exists found, load_credentials env_file = Ok found).
Proof.
  split.
  - unfold save_tokens. destruct env_file as [content|].
    + destruct (@read_env_returns (file_lines content) [])
        as (d & -> & _); [|reflexivity|constructor|].
      * apply read_lines_shape. reflexivity.
      * eexists. reflexivity.
    + eexists. reflexivity.
  - destruct env_file as [content|]; [|eexists; reflexivity].
    unfold load_credentials.
    destruct (load_credentials_loop_dict (file_lines content) []
                {| client_id := None; client_secret := None |}
                eq_refl eq_refl) as (d & c' & _ & -> & _).
    cbn [bind]. destruct (client_id c'), (client_secret c');
      eexists; reflexivity.
Qed.
